(** * Voice session engine of the ZED front-end (hook [useVoiceInput])

    A shallow embedding of the client-side voice hook: the wake/end phrase
    helpers, the WebSocket message handlers, the 20 Hz voice-activity tick,
    the recording life cycle and the public actions, followed by the
    properties of the session engine.

    Conventions of the embedding.
    - A JavaScript string is its sequence of UTF-16 code units. White space
      is the set [String.prototype.trim] removes; the case mapping of
      [String.prototype.toLowerCase] is a parameter of the development.
    - [Date.now()] readings are inputs of the handlers, in milliseconds ([Z]).
    - A level sample is a finite double, hence a rational ([Q]); it is an
      input of the interval callback. [getVolume] itself is modelled over
      the reals, with an explicit rounding after each operation.
    - React state and the refs mirroring it ([status]/[statusRef],
      [conversationState]/[conversationStateRef]) are always written together
      in the source and are one field here.
    - Handlers are state transformers that also log the calls made on the
      socket and on the media recorder. An [async] handler runs to its end
      before the next event.
    - The browser delivers a message only on an open socket, and [wsRef]
      holds the socket whose [onmessage] runs; a property of a message
      handler that needs it takes [wsOpen] as a hypothesis. *)

From Stdlib Require Import List Bool Arith NArith ZArith QArith Lia.
From Stdlib Require Import Reals Lra.
From Stdlib.Strings Require Byte.
Import ListNotations.

Local Open Scope list_scope.

(* ================================================================== *)
(** ** JavaScript string primitives used by the hook *)
(* ================================================================== *)

Module JsString.

(** A UTF-16 code unit, [0 .. 65535]. *)
Definition CodeUnit : Set := N.
Bind Scope N_scope with CodeUnit.

(** A JavaScript string: the sequence of its code units. [length], [slice],
    [indexOf] and [includes] all count and compare code units. *)
Inductive string : Set :=
| EmptyString
| String (c : CodeUnit) (r : string).

(** String literals stand for ASCII texts, one code unit per character. *)
Fixpoint ofBytes (l : list Byte.byte) : option string :=
  match l with
  | [] => Some EmptyString
  | b :: r =>
      if (Byte.to_N b <? 128)%N
      then option_map (String (Byte.to_N b)) (ofBytes r)
      else None
  end.

Fixpoint toBytes (s : string) : option (list Byte.byte) :=
  match s with
  | EmptyString => Some []
  | String c r =>
      match (if (c <? 128)%N then Byte.of_N c else None), toBytes r with
      | Some b, Some l => Some (b :: l)
      | _, _ => None
      end
  end.

Declare Scope js_scope.
Delimit Scope js_scope with js.
Bind Scope js_scope with string.
String Notation string ofBytes toBytes : js_scope.

(** [s + t]. *)
Fixpoint append (s t : string) : string :=
  match s with
  | EmptyString => t
  | String c r => String c (append r t)
  end.

(** [s.length]. *)
Fixpoint length (s : string) : nat :=
  match s with
  | EmptyString => O
  | String _ r => S (length r)
  end.

(** [String.prototype.toLowerCase] is the default case conversion of
    Unicode as the engine implements it; it may change the length of the
    text. The hook is studied for an arbitrary mapping. *)
Class CaseMapping := { toLowerCase : string -> string }.

(** White space removed by [String.prototype.trim], the code points of
    WhiteSpace and LineTerminator: TAB, LF, VT, FF, CR, SPACE, U+00A0,
    U+1680, U+2000 to U+200A, U+2028, U+2029, U+202F, U+205F, U+3000 and
    U+FEFF. *)
Definition isSpace (c : CodeUnit) : bool :=
  (((9 <=? c) && (c <=? 13)) || (c =? 32) || (c =? 160) || (c =? 5760)
   || ((8192 <=? c) && (c <=? 8202)) || (c =? 8232) || (c =? 8233)
   || (c =? 8239) || (c =? 8287) || (c =? 12288) || (c =? 65279))%N.

Fixpoint trimStart (s : string) : string :=
  match s with
  | EmptyString => EmptyString
  | String c r => if isSpace c then trimStart r else s
  end.

Fixpoint trimEnd (s : string) : string :=
  match s with
  | EmptyString => EmptyString
  | String c r =>
      match trimEnd r with
      | EmptyString => if isSpace c then EmptyString else String c EmptyString
      | r' => String c r'
      end
  end.

Definition trim (s : string) : string := trimEnd (trimStart s).

(** [s.startsWith(p)]. *)
Fixpoint startsWith (p s : string) : bool :=
  match p, s with
  | EmptyString, _ => true
  | String a p', String b s' => N.eqb a b && startsWith p' s'
  | String _ _, EmptyString => false
  end.

(** [s.indexOf(p)], [None] standing for [-1]. *)
Fixpoint indexOf (p s : string) : option nat :=
  if startsWith p s then Some 0%nat
  else match s with
       | EmptyString => None
       | String _ r => option_map S (indexOf p r)
       end.

(** [s.includes(p)]. *)
Definition includes (p s : string) : bool :=
  match indexOf p s with Some _ => true | None => false end.

(** [s.slice(n)] for [0 <= n]. *)
Fixpoint slice (n : nat) (s : string) : string :=
  match n, s with
  | O, _ => s
  | S _, EmptyString => EmptyString
  | S n', String _ r => slice n' r
  end.

(** Truthiness of a string: the empty string is falsy. *)
Definition truthy (s : string) : bool :=
  match s with EmptyString => false | String _ _ => true end.

(** A case mapping to evaluate the hook on concrete texts. On a text made
    of ASCII characters, of U+0130 (capital I with dot above) and of
    characters without case (spaces, ideographs) it is what [toLowerCase]
    returns: the letters A to Z moved to a to z, U+0130 replaced by the two
    code units U+0069 U+0307, the rest unchanged. *)
Definition lowerUnit (c : CodeUnit) : string :=
  if ((65 <=? c) && (c <=? 90))%N then String (c + 32)%N EmptyString
  else if (c =? 304)%N then String 105%N (String 775%N EmptyString)
  else String c EmptyString.

Fixpoint lowerUnits (s : string) : string :=
  match s with
  | EmptyString => EmptyString
  | String c r => append (lowerUnit c) (lowerUnits r)
  end.

Definition basicCase : CaseMapping := {| toLowerCase := lowerUnits |}.

End JsString.
Import JsString.

Local Open Scope js_scope.

(* ================================================================== *)
(** ** Types of the hook *)
(* ================================================================== *)

Inductive VoiceMode := PushToTalk | HandsFree.
Inductive VoiceStatus := Idle | Listening | Recording | Processing | Speaking | Error.
Inductive ConversationState := Waiting | Active.
Inductive Role := User | Assistant.

(** [ChatMessage]: the id is the role prefix followed by the clock reading,
    [`user-${Date.now()}`]; it is kept as its two components. *)
Record ChatMessage := mkMsg {
  msg_idTime : Z;
  msg_role : Role;
  msg_content : string;
  msg_timestamp : Z
}.

(** [VoiceInputConfig] after the defaults are merged in (times in ms). *)
Record Config := mkConfig {
  vadThreshold : Q;
  silenceDuration : Z;
  speechMinDuration : Z;
  sampleRate : Z
}.

Definition DEFAULT_CONFIG : Config :=
  {| vadThreshold := 8 # 100;
     silenceDuration := 1500;
     speechMinDuration := 150;
     sampleRate := 16000 |}.

Definition Blob := list Byte.byte.

(** State of a [MediaRecorder]. *)
Inductive RecorderState := RecInactive | RecRecording.

(** Messages written on the socket. *)
Inductive Outbound :=
| OutConfig (rate : Z)
| OutText (text : string)
| OutEndConversation
| OutAudio (data : Blob).

(** JSON messages read from the socket:
    [{type:"response", text?, done, full_text?, has_audio?}] and the others. *)
Inductive Inbound :=
| Transcription (text : string)
| Response (text : option string) (done : bool)
           (full_text : option string) (has_audio : option bool)
| ErrorMsg (message : string)
| Pong
| ConfigAck.

(** Calls on the outside world that the properties observe. *)
Inductive Effect :=
| WsSend (m : Outbound)
| GetUserMedia
| RecorderStart
| RecorderStop.

Definition isRecorderStart (e : Effect) : bool :=
  match e with RecorderStart => true | _ => false end.
Definition isRecorderStop (e : Effect) : bool :=
  match e with RecorderStop => true | _ => false end.

(** The state returned to the presentation layer ([VoiceInputState]). *)
Record View := mkView {
  status : VoiceStatus;
  mode : VoiceMode;
  conversationState : ConversationState;
  isConnected : bool;
  transcription : string;
  response : string;
  error : option string;
  volume : Q;
  chatHistory : list ChatMessage
}.

(** The refs of the voice-activity detector. *)
Record Vad := mkVad {
  isSpeaking : bool;
  silenceStart : option Z;
  speechStart : option Z;
  vadEnabled : bool;
  isRecording : bool;
  cooldownUntil : Z
}.

(** The remaining refs: response accumulator, socket, recorder, stream,
    recorded chunks. [wsOpen] is [wsRef.current?.readyState === OPEN],
    [hasStream] is [streamRef.current] (and the analyser) being set. *)
Record Io := mkIo {
  currentResponse : string;
  wsOpen : bool;
  recorder : option RecorderState;
  hasStream : bool;
  chunks : list Blob
}.

Record Hook := mkHook { view : View; vad : Vad; io : Io }.

(** Initial state of the hook (the [useState]/[useRef] initialisers). *)
Definition initialHook : Hook :=
  {| view := {| status := Idle; mode := HandsFree; conversationState := Waiting;
                isConnected := false; transcription := EmptyString; response := EmptyString;
                error := None; volume := 0; chatHistory := [] |};
     vad := {| isSpeaking := false; silenceStart := None; speechStart := None;
               vadEnabled := false; isRecording := false; cooldownUntil := 0 |};
     io := {| currentResponse := EmptyString; wsOpen := false; recorder := None;
              hasStream := false; chunks := [] |} |}.

(* ------------------------------------------------------------------ *)
(** *** Field updates *)

Definition onView (f : View -> View) (h : Hook) : Hook :=
  {| view := f (view h); vad := vad h; io := io h |}.
Definition onVad (f : Vad -> Vad) (h : Hook) : Hook :=
  {| view := view h; vad := f (vad h); io := io h |}.
Definition onIo (f : Io -> Io) (h : Hook) : Hook :=
  {| view := view h; vad := vad h; io := f (io h) |}.

Definition withStatus (x : VoiceStatus) :=
  onView (fun '(mkView _ b c d e f g i j) => mkView x b c d e f g i j).
Definition withConversationState (x : ConversationState) :=
  onView (fun '(mkView a b _ d e f g i j) => mkView a b x d e f g i j).
Definition withTranscription (x : string) :=
  onView (fun '(mkView a b c d _ f g i j) => mkView a b c d x f g i j).
Definition withResponse (x : string) :=
  onView (fun '(mkView a b c d e _ g i j) => mkView a b c d e x g i j).
Definition withError (x : option string) :=
  onView (fun '(mkView a b c d e f _ i j) => mkView a b c d e f x i j).
Definition withMode (x : VoiceMode) :=
  onView (fun '(mkView a _ c d e f g i j) => mkView a x c d e f g i j).
Definition withIsConnected (x : bool) :=
  onView (fun '(mkView a b c _ e f g i j) => mkView a b c x e f g i j).
Definition withVolume (x : Q) :=
  onView (fun '(mkView a b c d e f g _ j) => mkView a b c d e f g x j).
Definition withChatHistory (x : list ChatMessage) :=
  onView (fun '(mkView a b c d e f g i _) => mkView a b c d e f g i x).

Definition withIsSpeaking (x : bool) :=
  onVad (fun '(mkVad _ b c d e f) => mkVad x b c d e f).
Definition withSilenceStart (x : option Z) :=
  onVad (fun '(mkVad a _ c d e f) => mkVad a x c d e f).
Definition withSpeechStart (x : option Z) :=
  onVad (fun '(mkVad a b _ d e f) => mkVad a b x d e f).
Definition withVadEnabled (x : bool) :=
  onVad (fun '(mkVad a b c _ e f) => mkVad a b c x e f).
Definition withIsRecording (x : bool) :=
  onVad (fun '(mkVad a b c d _ f) => mkVad a b c d x f).
Definition withCooldownUntil (x : Z) :=
  onVad (fun '(mkVad a b c d e _) => mkVad a b c d e x).

Definition withCurrentResponse (x : string) :=
  onIo (fun '(mkIo _ b c d e) => mkIo x b c d e).
Definition withWsOpen (x : bool) :=
  onIo (fun '(mkIo a _ c d e) => mkIo a x c d e).
Definition withRecorder (x : option RecorderState) :=
  onIo (fun '(mkIo a b _ d e) => mkIo a b x d e).
Definition withHasStream (x : bool) :=
  onIo (fun '(mkIo a b c _ e) => mkIo a b c x e).
Definition withChunks (x : list Blob) :=
  onIo (fun '(mkIo a b c d _) => mkIo a b c d x).

(* ================================================================== *)
(** ** Handlers as state transformers with a log of effects *)
(* ================================================================== *)

Definition Act (A : Type) : Type := Hook -> A * Hook * list Effect.

Definition ret {A} (a : A) : Act A := fun h => (a, h, []).
Definition bind {A B} (c : Act A) (k : A -> Act B) : Act B :=
  fun h =>
    let '(a, h1, l1) := c h in
    let '(b, h2, l2) := k a h1 in
    (b, h2, l1 ++ l2).

Declare Scope act_scope.
Delimit Scope act_scope with act.
Notation "x <- c ;; k" := (bind c (fun x => k))
  (at level 61, c at next level, right associativity) : act_scope.
Notation "c ;; k" := (bind c (fun _ => k))
  (at level 61, right associativity) : act_scope.
Local Open Scope act_scope.

Definition modify (f : Hook -> Hook) : Act unit := fun h => (tt, f h, []).
Definition read {A} (f : Hook -> A) : Act A := fun h => (f h, h, []).
Definition emit (e : Effect) : Act unit := fun h => (tt, h, [e]).
Definition skip : Act unit := ret tt.
Definition when (b : bool) (c : Act unit) : Act unit := if b then c else skip.

(** Final state and log of a handler run. *)
Definition exec {A} (c : Act A) (h : Hook) : Hook := snd (fst (c h)).
Definition effects {A} (c : Act A) (h : Hook) : list Effect := snd (c h).
Definition result {A} (c : Act A) (h : Hook) : A := fst (fst (c h)).

(** The setters of the hook. *)
Definition setStatus (x : VoiceStatus) : Act unit := modify (withStatus x).
Definition setConversationState (x : ConversationState) : Act unit :=
  modify (withConversationState x).
Definition setTranscription (x : string) : Act unit := modify (withTranscription x).
Definition setResponse (x : string) : Act unit := modify (withResponse x).
Definition setError (x : option string) : Act unit := modify (withError x).
Definition setVolume (x : Q) : Act unit := modify (withVolume x).
Definition appendChat (m : ChatMessage) : Act unit :=
  modify (fun h => withChatHistory (chatHistory (view h) ++ [m]) h).

(** [if (wsRef.current?.readyState === WebSocket.OPEN) wsRef.current.send(m)]. *)
Definition sendIfOpen (m : Outbound) (otherwise : Act unit) : Act unit :=
  open <- read (fun h => wsOpen (io h)) ;;
  if open then emit (WsSend m) else otherwise.

(* ================================================================== *)
(** ** Wake word and end phrase detection *)
(* ================================================================== *)

Definition WAKE_PHRASES : list string :=
  ["hey zed"; "hey said"; "hey set"; "hey zedd"; "hey zet"; "a zed"; "heyze"].
Definition END_PHRASES : list string :=
  ["thank you zed"; "thanks zed"; "thank you said"; "thanks said"; "thankyou zed"].

Definition containsWakeWord {cm : CaseMapping} (text : string) : bool :=
  let lower := trim (toLowerCase text) in
  existsb (fun phrase => includes phrase lower) WAKE_PHRASES.

Definition containsEndPhrase {cm : CaseMapping} (text : string) : bool :=
  let lower := trim (toLowerCase text) in
  existsb (fun phrase => includes phrase lower) END_PHRASES.

(** The [for (const phrase of phrases)] loop of [extractAfterWakeWord]. *)
Fixpoint extractAfter (phrases : list string) (text lower : string) : string :=
  match phrases with
  | [] => text
  | phrase :: rest =>
      match indexOf phrase lower with
      | Some idx => trim (slice (idx + JsString.length phrase) text)
      | None => extractAfter rest text lower
      end
  end.

Definition extractAfterWakeWord {cm : CaseMapping} (text : string) : string :=
  extractAfter WAKE_PHRASES text (toLowerCase text).

(* ================================================================== *)
(** ** WebSocket handlers *)
(* ================================================================== *)

Definition userMessage (now : Z) (content : string) : ChatMessage :=
  {| msg_idTime := now; msg_role := User; msg_content := content;
     msg_timestamp := now |}.
Definition assistantMessage (now : Z) (content : string) : ChatMessage :=
  {| msg_idTime := now; msg_role := Assistant; msg_content := content;
     msg_timestamp := now |}.

Definition resetAccumulator : Act unit := modify (withCurrentResponse EmptyString).

(** [ws.onopen], [ws.onclose], [ws.onerror] of the socket held in [wsRef]. *)
Definition onOpen (cfg : Config) : Act unit :=
  modify (withWsOpen true) ;;
  modify (withIsConnected true) ;;
  setError None ;;
  emit (WsSend (OutConfig (sampleRate cfg))).

Definition onClose : Act unit :=
  modify (withWsOpen false) ;;
  modify (withIsConnected false).

Definition onSocketError : Act unit :=
  setError (Some "Connection failed") ;;
  modify (withIsConnected false).

(** [case "transcription"] of [ws.onmessage]. *)
Definition onTranscription {cm : CaseMapping} (now : Z) (text : string)
    : Act unit :=
  if containsEndPhrase text then
    (* end phrase first (takes priority) *)
    setConversationState Waiting ;;
    setTranscription EmptyString ;;
    setResponse "Goodbye! Say 'Hey ZED' when you need me." ;;
    sendIfOpen OutEndConversation skip ;;
    setStatus Idle
  else
    cs <- read (fun h => conversationState (view h)) ;;
    match cs with
    | Waiting =>
        if containsWakeWord text then
          setConversationState Active ;;
          let afterWake := extractAfterWakeWord text in
          if truthy afterWake && (2 <? JsString.length afterWake)%nat then
            setTranscription afterWake ;;
            setStatus Processing ;;
            appendChat (userMessage now afterWake) ;;
            resetAccumulator ;;
            sendIfOpen (OutText afterWake) skip
          else
            setTranscription EmptyString ;;
            setResponse "I'm listening..." ;;
            setStatus Idle
        else
          setStatus Idle
    | Active =>
        setTranscription text ;;
        setStatus Processing ;;
        appendChat (userMessage now text) ;;
        resetAccumulator
    end.

(** String conversion of an optional field in [+=]: a missing field reads
    [undefined]. *)
Definition jsToString (o : option string) : string :=
  match o with Some t => t | None => "undefined" end.

(** [data.full_text || currentResponseRef.current]. *)
Definition finalTextOf (full_text : option string) (current : string) : string :=
  match full_text with
  | Some ft => if truthy ft then ft else current
  | None => current
  end.

(** [!data.has_audio]: a missing flag is falsy. *)
Definition noAudio (has_audio : option bool) : bool :=
  match has_audio with Some true => false | _ => true end.

(** [case "response"] of [ws.onmessage]. *)
Definition onResponse (now : Z) (text : option string) (done : bool)
    (full_text : option string) (has_audio : option bool) : Act unit :=
  current <- read (fun h => currentResponse (io h)) ;;
  if done then
    let finalText := finalTextOf full_text current in
    when (truthy finalText)
      (setResponse finalText ;;
       appendChat (assistantMessage now finalText)) ;;
    resetAccumulator ;;
    when (noAudio has_audio)
      (modify (withCooldownUntil (now + 2000)) ;;
       setStatus Idle)
  else
    let current' := JsString.append current (jsToString text) in
    modify (withCurrentResponse current') ;;
    setResponse current' ;;
    setStatus Speaking.

(** [case "error"]. *)
Definition onErrorMessage (message : string) : Act unit :=
  setError (Some message) ;;
  setStatus Error.

(** The JSON part of [ws.onmessage]. *)
Definition onMessage {cm : CaseMapping} (now : Z) (m : Inbound) : Act unit :=
  match m with
  | Transcription text => onTranscription now text
  | Response text done full_text has_audio =>
      onResponse now text done full_text has_audio
  | ErrorMsg message => onErrorMessage message
  | Pong | ConfigAck => skip
  end.

(** The binary part of [ws.onmessage]: playback starts, later ends or fails. *)
Definition onAudio : Act unit := setStatus Speaking.
Definition onAudioEnded (now : Z) : Act unit :=
  modify (withCooldownUntil (now + 2000)) ;;
  setStatus Idle.
Definition onAudioError : Act unit := setStatus Idle.

(* ================================================================== *)
(** ** Audio set-up and recording *)
(* ================================================================== *)

(** What the browser answers: whether [getUserMedia] grants the microphone
    and whether a [MediaRecorder] can be built and started. *)
Record Device := mkDevice { micGranted : bool; recorderOk : bool }.

(** [setupAudio]: the cached stream, or a request for the microphone.
    The result is [false] when the promise rejects. *)
Definition setupAudio (dev : Device) : Act bool :=
  cached <- read (fun h => hasStream (io h)) ;;
  if cached then ret true
  else
    emit GetUserMedia ;;
    if micGranted dev then
      modify (withHasStream true) ;;
      ret true
    else
      setError (Some "Microphone access denied") ;;
      ret false.

(** [startRecordingInternal]; the [catch] branch is the last one. The
    function is run with its [await] settled before the next event: when
    the stream is cached the remainder is a microtask, and when it is not,
    the answer to the permission prompt ([micGranted]) comes before anything
    else happens. [isRecordingRef] is tested before the [await] and set
    after it; what happens when other events arrive while a prompt is open
    is studied on the two parts of the function, [startRecordingBegin] and
    [startRecordingResume]. *)
Definition startRecordingInternal (dev : Device) : Act unit :=
  recording <- read (fun h => isRecording (vad h)) ;;
  if recording then skip
  else
    stream <- setupAudio dev ;;
    if stream then
      modify (withChunks []) ;;
      if recorderOk dev then
        emit RecorderStart ;;
        modify (withRecorder (Some RecRecording)) ;;
        modify (withIsRecording true) ;;
        setStatus Recording ;;
        setResponse EmptyString
      else
        setError (Some "Failed to start recording") ;;
        setStatus Error
    else
      setError (Some "Failed to start recording") ;;
      setStatus Error.

(** [recorder.ondataavailable]. *)
Definition onDataAvailable (data : Blob) : Act unit :=
  when (0 <? List.length data)%nat
    (modify (fun h => withChunks (chunks (io h) ++ [data]) h)).

(** [recorder.onstop], fired by the browser after [recorder.stop()]. *)
Definition onRecorderStop : Act unit :=
  modify (withIsRecording false) ;;
  setStatus Processing ;;
  blob <- read (fun h => List.concat (chunks (io h))) ;;
  sendIfOpen (OutAudio blob)
    (setError (Some "Not connected to server") ;;
     setStatus Error) ;;
  modify (withChunks []).

(** [stopRecordingInternal]. *)
Definition stopRecordingInternal : Act unit :=
  recording <- read (fun h => isRecording (vad h)) ;;
  rec <- read (fun h => recorder (io h)) ;;
  match recording, rec with
  | true, Some st =>
      match st with
      | RecRecording =>
          emit RecorderStop ;;
          modify (withRecorder (Some RecInactive))
      | RecInactive => skip
      end
  | _, _ => skip
  end.

(* ================================================================== *)
(** ** Volume monitoring: the voice-activity detector *)
(* ================================================================== *)

(** One firing of the 50 ms interval: the level returned by [getVolume],
    the reading [now] and the reading of the silence branch. *)
Record Sample := mkSample { level : Q; clock : Z; clock2 : Z }.

Definition Qltb (x y : Q) : bool := negb (Qle_bool y x).

(** Truthiness of a time-stamp ref: [null] and [0] are falsy. *)
Definition truthyTime (o : option Z) : bool :=
  match o with Some t => negb (t =? 0)%Z | None => false end.

Definition timeOf (o : option Z) : Z :=
  match o with Some t => t | None => 0%Z end.

Definition notBusy (st : VoiceStatus) : bool :=
  match st with Processing | Speaking => false | _ => true end.

(** [canListen] of the interval callback. *)
Definition canListen (now : Z) (h : Hook) : bool :=
  let inCooldown := (now <? cooldownUntil (vad h))%Z in
  vadEnabled (vad h) && negb (isRecording (vad h)) && negb inCooldown
  && notBusy (status (view h)).

(** The speech branch of the callback; the result tells whether
    [startRecordingInternal] was called. *)
Definition speechBranch (cfg : Config) (x : Sample) : Act bool :=
  listen <- read (canListen (clock x)) ;;
  if listen then
    if Qltb (vadThreshold cfg) (level x) then
      modify (withSilenceStart None) ;;
      start <- read (fun h => speechStart (vad h)) ;;
      if negb (truthyTime start) then
        modify (withSpeechStart (Some (clock x))) ;;
        ret false
      else if (speechMinDuration cfg <? clock x - timeOf start)%Z then
        modify (withIsSpeaking true) ;;
        ret true
      else ret false
    else
      modify (withSpeechStart None) ;;
      ret false
  else ret false.

(** The silence branch of the callback. *)
Definition silenceBranch (cfg : Config) (x : Sample) : Act unit :=
  active <- read (fun h => vadEnabled (vad h) && isRecording (vad h)
                           && isSpeaking (vad h)) ;;
  if active then
    if Qltb (level x) (vadThreshold cfg) then
      start <- read (fun h => silenceStart (vad h)) ;;
      if negb (truthyTime start) then
        modify (withSilenceStart (Some (clock2 x)))
      else if (silenceDuration cfg <? clock2 x - timeOf start)%Z then
        stopRecordingInternal ;;
        modify (withIsSpeaking false) ;;
        modify (withSilenceStart None)
      else skip
    else modify (withSilenceStart None)
  else skip.

(** The interval callback of [startVolumeMonitoring]. The body of
    [startRecordingInternal] past its [await] runs as a microtask, that is
    after the silence branch of the same firing and before any other
    event. *)
Definition volumeTick (cfg : Config) (dev : Device) (x : Sample) : Act unit :=
  setVolume (level x) ;;
  called <- speechBranch cfg x ;;
  silenceBranch cfg x ;;
  when called (startRecordingInternal dev).

(** A run of firings. *)
Fixpoint volumeTicks (cfg : Config) (dev : Device) (xs : list Sample) : Act unit :=
  match xs with
  | [] => skip
  | x :: rest => volumeTick cfg dev x ;; volumeTicks cfg dev rest
  end.

(* ================================================================== *)
(** ** Public actions *)
(* ================================================================== *)

Definition isPushToTalk (m : VoiceMode) : bool :=
  match m with PushToTalk => true | HandsFree => false end.

Definition startRecording (dev : Device) : Act unit :=
  m <- read (fun h => mode (view h)) ;;
  when (isPushToTalk m) (startRecordingInternal dev).

Definition stopRecording : Act unit :=
  m <- read (fun h => mode (view h)) ;;
  when (isPushToTalk m) stopRecordingInternal.

Definition toggleRecording (dev : Device) : Act unit :=
  recording <- read (fun h => isRecording (vad h)) ;;
  if recording then stopRecording else startRecording dev.

Definition stopVolumeMonitoring : Act unit := setVolume 0.

Definition setMode (dev : Device) (newMode : VoiceMode) : Act unit :=
  modify (withMode newMode) ;;
  match newMode with
  | HandsFree =>
      stream <- setupAudio dev ;;
      if stream then
        modify (withVadEnabled true) ;;
        setStatus Listening
      else skip
  | PushToTalk =>
      modify (withVadEnabled false) ;;
      modify (withIsSpeaking false) ;;
      modify (withSilenceStart None) ;;
      modify (withSpeechStart None) ;;
      recording <- read (fun h => isRecording (vad h)) ;;
      when recording stopRecordingInternal ;;
      stopVolumeMonitoring ;;
      setStatus Idle
  end.

Definition sendText (now : Z) (text : string) : Act unit :=
  if negb (truthy (trim text)) then skip
  else
    setTranscription text ;;
    setResponse EmptyString ;;
    setStatus Processing ;;
    appendChat (userMessage now text) ;;
    resetAccumulator ;;
    sendIfOpen (OutText text)
      (setError (Some "Not connected to server") ;;
       setStatus Error).

Definition clear : Act unit :=
  setTranscription EmptyString ;;
  setResponse EmptyString ;;
  setError None ;;
  modify (withChatHistory []) ;;
  resetAccumulator.

(* ================================================================== *)
(** ** Level meter *)
(* ================================================================== *)

(** [getVolume] computes on doubles. Every arithmetic operation is the real
    operation followed by rounding; [rnd] is that rounding. *)
Section LevelMeter.

Variable rnd : R -> R.

Definition byteValue (b : Byte.byte) : R := INR (N.to_nat (Byte.to_N b)).

(** The [for] loop accumulating [sum]. *)
Fixpoint sumSquares (dataArray : list Byte.byte) (sum : R) : R :=
  match dataArray with
  | [] => sum
  | b :: rest =>
      let normalized := rnd (byteValue b / 255) in
      sumSquares rest (rnd (sum + rnd (normalized * normalized)))
  end.

(** [getVolume]: the argument is what [getByteFrequencyData] writes, or
    [None] when [analyserRef.current] is not set. *)
Definition getVolume (analyser : option (list Byte.byte)) : R :=
  match analyser with
  | None => 0
  | Some dataArray =>
      let sum := sumSquares dataArray 0 in
      rnd (sqrt (rnd (sum / INR (List.length dataArray))))
  end.

End LevelMeter.

(* ================================================================== *)
(** ** Vocabulary of the properties *)
(* ================================================================== *)

(** A stream of incremental [response] messages: each token arrives as
    [{type:"response", text: token, done: false}]. *)
Fixpoint streamTokens {cm : CaseMapping} (now : Z) (tokens : list string)
    : Act unit :=
  match tokens with
  | [] => skip
  | token :: rest =>
      onMessage now (Response (Some token) false None None) ;;
      streamTokens now rest
  end.

(** Left-to-right concatenation of the tokens. *)
Definition concatTokens (tokens : list string) : string :=
  fold_left JsString.append tokens EmptyString.

(** A sample is loud when its level exceeds the threshold, quiet when it is
    below it. *)
Definition loud (cfg : Config) (x : Sample) : Prop := vadThreshold cfg < level x.

(** [n] samples of level [lvl], one every [period] ms from [t0] on. *)
Definition samplesEvery (period : Z) (lvl : Q) (t0 : Z) (n : nat) : list Sample :=
  map (fun i => let t := (t0 + period * Z.of_nat i)%Z in mkSample lvl t t) (seq 0 n).

Definition startsIn (l : list Effect) : nat := List.length (filter isRecorderStart l).
Definition stopsIn (l : list Effect) : nat := List.length (filter isRecorderStop l).

(** The detector may start a recording: the conjunction guarding the speech
    branch, spelled out. *)
Definition eligible (now : Z) (h : Hook) : Prop :=
  vadEnabled (vad h) = true /\ isRecording (vad h) = false /\
  (cooldownUntil (vad h) <= now)%Z /\
  status (view h) <> Processing /\ status (view h) <> Speaking.


(** A state of the hook in hands-free mode, socket open, stream cached. *)
Definition listeningHook : Hook :=
  onVad (fun v => mkVad false None None true false 0)
    (withStatus Listening (withHasStream true (withWsOpen true
      (withIsConnected true initialHook)))).

Definition goodDevice : Device := {| micGranted := true; recorderOk := true |}.

(** [p] occurs in [s] as a substring. *)
Definition occursIn (p s : string) : Prop :=
  exists pre post : string, s = JsString.append pre (JsString.append p post).

(** The phrase neither begins nor ends with white space. *)
Definition firstNonSpace (p : string) : bool :=
  match p with
  | EmptyString => false
  | String c _ => negb (isSpace c)
  end.

Fixpoint lastNonSpace (p : string) : bool :=
  match p with
  | EmptyString => false
  | String c EmptyString => negb (isSpace c)
  | String _ r => lastNonSpace r
  end.

Definition tightPhrase (p : string) : bool := firstNonSpace p && lastNonSpace p.

(** The firing calls [startRecordingInternal]. *)
Definition startRequested (cfg : Config) (x : Sample) (h : Hook) : bool :=
  result (speechBranch cfg x) (exec (setVolume (level x)) h).

(** The detector has seen speech since [t0] and has not started yet. *)
Definition speechPending (t0 : Z) (h : Hook) : Prop :=
  vadEnabled (vad h) = true /\ isRecording (vad h) = false /\
  notBusy (status (view h)) = true /\ speechStart (vad h) = Some t0.



(* ================================================================== *)
(** ** The hook as an event system *)
(* ================================================================== *)

(** The mount effect [initHandsFree]. Its closure holds the initial mode,
    which is hands-free, so its test on the mode always succeeds. *)
Definition initHandsFree (dev : Device) : Act unit :=
  stream <- setupAudio dev ;;
  if stream then
    modify (withVadEnabled true) ;;
    setStatus Listening
  else
    setError (Some "Microphone access required").

(** What can happen to the hook: socket events, playback events, firings of
    the sampling timer, recorder events, the mount effect and the public
    actions. *)
Inductive Event :=
| EvOpen
| EvClose
| EvSocketError
| EvMessage (now : Z) (m : Inbound)
| EvAudio
| EvAudioEnded (now : Z)
| EvAudioError
| EvTick (x : Sample)
| EvData (data : Blob)
| EvRecorderStop
| EvInitHandsFree
| EvStartRecording
| EvStopRecording
| EvToggleRecording
| EvSetMode (newMode : VoiceMode)
| EvSendText (now : Z) (text : string)
| EvClear.

Definition handle {cm : CaseMapping} (cfg : Config) (dev : Device) (ev : Event)
    : Act unit :=
  match ev with
  | EvOpen => onOpen cfg
  | EvClose => onClose
  | EvSocketError => onSocketError
  | EvMessage now m => onMessage now m
  | EvAudio => onAudio
  | EvAudioEnded now => onAudioEnded now
  | EvAudioError => onAudioError
  | EvTick x => volumeTick cfg dev x
  | EvData data => onDataAvailable data
  | EvRecorderStop => onRecorderStop
  | EvInitHandsFree => initHandsFree dev
  | EvStartRecording => startRecording dev
  | EvStopRecording => stopRecording
  | EvToggleRecording => toggleRecording dev
  | EvSetMode newMode => setMode dev newMode
  | EvSendText now text => sendText now text
  | EvClear => clear
  end.

(** The hook together with [volumeIntervalRef]: whether the sampling timer
    is running. *)
Record World := mkWorld { hook : Hook; monitoring : bool }.

Definition initialWorld : World := {| hook := initialHook; monitoring := false |}.

(** [startVolumeMonitoring] runs once [setupAudio] has resolved, that is when
    the stream is there afterwards; [stopVolumeMonitoring] clears the timer. *)
Definition monitoringAfter (ev : Event) (before : bool) (after : Hook) : bool :=
  match ev with
  | EvSetMode PushToTalk => false
  | EvSetMode HandsFree | EvInitHandsFree => before || hasStream (io after)
  | _ => before
  end.

(** The browser fires the timer only while it is set, and [onstop] only
    after [recorder.stop()], once. *)
Definition fires (ev : Event) (w : World) : bool :=
  match ev with
  | EvTick _ => monitoring w
  | EvRecorderStop =>
      match recorder (io (hook w)) with
      | Some RecInactive => isRecording (vad (hook w))
      | _ => false
      end
  | _ => true
  end.

Definition stepWorld {cm : CaseMapping} (cfg : Config) (de : Device * Event)
    (w : World)
  : World * list Effect :=
  let '(dev, ev) := de in
  if fires ev w then
    let '(_, h', l) := handle cfg dev ev (hook w) in
    ({| hook := h'; monitoring := monitoringAfter ev (monitoring w) h' |}, l)
  else (w, []).

Fixpoint runWorld {cm : CaseMapping} (cfg : Config) (evs : list (Device * Event))
    (w : World)
  : World * list Effect :=
  match evs with
  | [] => (w, [])
  | de :: rest =>
      let '(w1, l1) := stepWorld cfg de w in
      let '(w2, l2) := runWorld cfg rest w1 in
      (w2, l1 ++ l2)
  end.

(** Number of recorders running: one when [mediaRecorderRef] holds a
    recorder in state recording. *)
Definition running (h : Hook) : nat :=
  match recorder (io h) with Some RecRecording => 1 | _ => 0 end.

Definition isGetUserMedia (e : Effect) : bool :=
  match e with GetUserMedia => true | _ => false end.
Definition isSend (e : Effect) : bool :=
  match e with WsSend _ => true | _ => false end.

(** The refs of the recorder and of the detector agree. *)
Record HookOk (h : Hook) : Prop := mkHookOk {
  recorder_recording :
    recorder (io h) = Some RecRecording -> isRecording (vad h) = true;
  recording_recorder :
    isRecording (vad h) = true -> recorder (io h) <> None;
  status_recording :
    status (view h) = Recording -> isRecording (vad h) = true;
  speaking_enabled :
    isSpeaking (vad h) = true -> vadEnabled (vad h) = true;
  enabled_stream :
    vadEnabled (vad h) = true -> hasStream (io h) = true
}.

(** ... and the sampling timer runs exactly when the detector is enabled. *)
Definition Consistent (w : World) : Prop :=
  HookOk (hook w) /\ monitoring w = vadEnabled (vad (hook w)).

(** Relations between the state before a handler, the state after it and
    what it logged. Those that hold of an empty run and compose along runs
    can be checked handler by handler. *)
Definition Rel : Type := Hook -> Hook -> list Effect -> Prop.

Class LogOrder (R : Rel) : Prop := {
  log_refl : forall h, R h h [];
  log_trans : forall h1 h2 h3 l1 l2,
      R h1 h2 l1 -> R h2 h3 l2 -> R h1 h3 (l1 ++ l2)
}.

Definition Respects {A} (R : Rel) (c : Act A) : Prop :=
  forall h, R h (exec c h) (effects c h).

(** The handler leaves a component of the state alone. *)
Definition Keeps {X} (f : Hook -> X) : Rel := fun h h' _ => f h' = f h.

(** The handler writes nothing on the socket. *)
Definition Silent : Rel := fun _ _ l => existsb isSend l = false.

(** The handler makes no call of the given kind. *)
Definition Never (kind : Effect -> bool) : Rel :=
  fun _ _ l => existsb kind l = false.

(** The handler only appends to the chat history. *)
Definition Extends : Rel :=
  fun h h' _ => exists added, chatHistory (view h') = chatHistory (view h) ++ added.

(** The handler keeps the refs consistent, starts a recorder only when none
    runs and stops one only when one runs, and does not ask for the
    microphone once the stream is cached. *)
Definition Safe : Rel :=
  fun h h' l =>
    HookOk h ->
    HookOk h' /\
    (startsIn l + running h = stopsIn l + running h')%nat /\
    (hasStream (io h) = true ->
     hasStream (io h') = true /\ existsb isGetUserMedia l = false).

(** A run of [ondataavailable] events. *)
Fixpoint dataEvents (blobs : list Blob) : Act unit :=
  match blobs with
  | [] => skip
  | b :: rest => onDataAvailable b ;; dataEvents rest
  end.

(** The message is a transcription. *)
Definition isTranscription (ev : Event) : bool :=
  match ev with EvMessage _ (Transcription _) => true | _ => false end.
Definition isClear (ev : Event) : bool :=
  match ev with EvClear => true | _ => false end.

(** One more press of the push-to-talk button, then the fragments recorded,
    a second press, the fragments the recorder still delivers after
    [stop()], and the stop event of the recorder. *)
Definition pushToTalkTurn (dev : Device) (blobs final : list Blob)
    : Act unit :=
  toggleRecording dev ;;
  dataEvents blobs ;;
  toggleRecording dev ;;
  dataEvents final ;;
  onRecorderStop.

(** The wake phrases without the variant ["hey zedd"]. *)
Definition WAKE_PHRASES_SHORT : list string :=
  ["hey zed"; "hey said"; "hey set"; "hey zet"; "a zed"; "heyze"].

(* ================================================================== *)
(** ** The hook of [frontend/src/hooks/useVoiceInput.ts] *)
(* ================================================================== *)

(** The copy of the hook kept under [frontend/src/hooks] has no conversation
    gate and no cool-down; its state is the state above without
    [conversationState] and [cooldownUntil], which it never reads or
    writes. Only what differs is given here; the recording functions and
    the silence branch are the same code. *)
Module Legacy.

Definition onTranscription (now : Z) (text : string) : Act unit :=
  setTranscription text ;;
  setStatus Processing ;;
  appendChat (userMessage now text) ;;
  resetAccumulator.

Definition onResponse (now : Z) (text : option string) (done : bool)
    (full_text : option string) : Act unit :=
  current <- read (fun h => currentResponse (io h)) ;;
  if done then
    setStatus Idle ;;
    let finalText := finalTextOf full_text current in
    when (truthy finalText)
      (setResponse finalText ;;
       appendChat (assistantMessage now finalText)) ;;
    resetAccumulator
  else
    let current' := JsString.append current (jsToString text) in
    modify (withCurrentResponse current') ;;
    setResponse current' ;;
    setStatus Speaking.

(** [if (vadEnabledRef.current && !isRecordingRef.current)]. *)
Definition canListen (h : Hook) : bool :=
  vadEnabled (vad h) && negb (isRecording (vad h)).

Definition speechBranch (cfg : Config) (x : Sample) : Act bool :=
  listen <- read canListen ;;
  if listen then
    if Qltb (vadThreshold cfg) (level x) then
      modify (withSilenceStart None) ;;
      start <- read (fun h => speechStart (vad h)) ;;
      if negb (truthyTime start) then
        modify (withSpeechStart (Some (clock x))) ;;
        ret false
      else if (speechMinDuration cfg <? clock x - timeOf start)%Z then
        modify (withIsSpeaking true) ;;
        ret true
      else ret false
    else
      modify (withSpeechStart None) ;;
      ret false
  else ret false.

Definition volumeTick (cfg : Config) (dev : Device) (x : Sample) : Act unit :=
  setVolume (level x) ;;
  called <- speechBranch cfg x ;;
  silenceBranch cfg x ;;
  when called (startRecordingInternal dev).

End Legacy.

(** A turn in hands-free mode: the firings during which the user speaks,
    the fragments recorded, the firings of the silence that follows, the
    fragments the recorder still delivers after [stop()], and the stop event
    of the recorder. *)
Definition handsFreeTurn (cfg : Config) (dev : Device) (speech : list Sample)
    (blobs : list Blob) (silence : list Sample) (final : list Blob)
    : Act unit :=
  volumeTicks cfg dev speech ;;
  dataEvents blobs ;;
  volumeTicks cfg dev silence ;;
  dataEvents final ;;
  onRecorderStop.

(* ================================================================== *)
(** ** The typing animation of the intro and welcome screens *)
(* ================================================================== *)

(** [text.slice(0, n)] on a text given as its sequence of code units. *)
Definition sliceTo {A : Type} (n : nat) (text : list A) : list A :=
  firstn n text.

(** The effect that types a text: the counter [i] of its closure, the text
    shown, whether its interval is still set, and how many times the
    time-out that moves to the next phase has been set. *)
Record Typing (A : Type) := mkTyping {
  typed : nat;
  shown : list A;
  timerOn : bool;
  timeouts : nat
}.

Arguments mkTyping {A}.
Arguments typed {A}.
Arguments shown {A}.
Arguments timerOn {A}.
Arguments timeouts {A}.

Definition typingStart {A : Type} : Typing A :=
  {| typed := 0; shown := []; timerOn := true; timeouts := 0 |}.

(** The interval callback:
    [setText(text.slice(0, i + 1)); i++;
     if (i === text.length) { clearInterval(timer); setTimeout(...) }]. *)
Definition typingTick {A : Type} (text : list A) (t : Typing A) : Typing A :=
  if timerOn t then
    let i := S (typed t) in
    if (i =? List.length text)%nat then
      {| typed := i; shown := sliceTo i text; timerOn := false;
         timeouts := S (timeouts t) |}
    else
      {| typed := i; shown := sliceTo i text; timerOn := true;
         timeouts := timeouts t |}
  else t.

Fixpoint typingTicks {A : Type} (text : list A) (n : nat) (t : Typing A)
    : Typing A :=
  match n with
  | O => t
  | S n' => typingTicks text n' (typingTick text t)
  end.

(* ================================================================== *)
(** ** [startRecordingInternal] across its [await] *)
(* ================================================================== *)

(** What [startRecordingInternal] leaves behind when it reaches its
    [await]: nothing (it returned), a continuation that will find the
    cached stream, or a continuation that waits for the answer to the
    permission prompt. *)
Inductive Pending := NoPending | PendingCached | PendingPrompt.

(** The part before the [await]: the test of [isRecordingRef], then
    [setupAudio] up to its own [await]. *)
Definition startRecordingBegin : Act Pending :=
  recording <- read (fun h => isRecording (vad h)) ;;
  if recording then ret NoPending
  else
    cached <- read (fun h => hasStream (io h)) ;;
    if cached then ret PendingCached
    else
      emit GetUserMedia ;;
      ret PendingPrompt.

(** The part after [await setupAudio()], with the stream in hand. *)
Definition startRecorder (dev : Device) : Act unit :=
  modify (withChunks []) ;;
  if recorderOk dev then
    emit RecorderStart ;;
    modify (withRecorder (Some RecRecording)) ;;
    modify (withIsRecording true) ;;
    setStatus Recording ;;
    setResponse EmptyString
  else
    setError (Some "Failed to start recording") ;;
    setStatus Error.

(** The continuation, run when the promise settles. It does not test
    [isRecordingRef] again. *)
Definition startRecordingResume (dev : Device) (p : Pending) : Act unit :=
  match p with
  | NoPending => skip
  | PendingCached => startRecorder dev
  | PendingPrompt =>
      if micGranted dev then
        modify (withHasStream true) ;;
        startRecorder dev
      else
        setError (Some "Microphone access denied") ;;
        setError (Some "Failed to start recording") ;;
        setStatus Error
  end.

(* ================================================================== *)
(** ** Evaluation on concrete texts *)
(* ================================================================== *)

(** The properties below are stated for an arbitrary case mapping. Where a
    handler is evaluated on a concrete text, the mapping is [basicCase] and
    the text is one on which it agrees with [toLowerCase]. *)
#[local] Existing Instance basicCase.
Section LevelMeterFacts.

Variable rnd : R -> R.
Hypothesis rnd_monotone : forall x y : R, (x <= y)%R -> (rnd x <= rnd y)%R.
Hypothesis rnd_exact :
  forall k : nat, (Z.of_nat k <= 2 ^ 53)%Z -> rnd (INR k) = INR k.

Lemma rnd_0 : rnd 0 = 0%R.
Proof. apply (rnd_exact 0). lia. Qed.

Lemma rnd_1 : rnd 1 = 1%R.
Proof. apply (rnd_exact 1). lia. Qed.

Lemma rnd_unit (x : R) : (0 <= x <= 1)%R -> (0 <= rnd x <= 1)%R.
Proof.
  intros [H0 H1]. split.
  - rewrite <- rnd_0. now apply rnd_monotone.
  - rewrite <- rnd_1. now apply rnd_monotone.
Qed.

Lemma div_unit (x y : R) : (0 <= x <= y)%R -> (0 < y)%R -> (0 <= x / y <= 1)%R.
Proof.
  intros [H0 H1] Hy. unfold Rdiv. split.
  - apply Rmult_le_pos; [lra | left; apply Rinv_0_lt_compat; lra].
  - apply Rmult_le_reg_r with y; [lra|].
    rewrite Rmult_assoc, Rinv_l; lra.
Qed.

Lemma byteValue_range (b : Byte.byte) : (0 <= byteValue b <= 255)%R.
Proof.
  unfold byteValue. split; [apply pos_INR|].
  replace 255%R with (INR 255) by (rewrite INR_IZR_INZ; reflexivity). apply le_INR.
  pose proof (Byte.to_N_bounded b). lia.
Qed.

Lemma normalized_unit (b : Byte.byte) : (0 <= rnd (byteValue b / 255) <= 1)%R.
Proof.
  apply rnd_unit. apply div_unit; [apply byteValue_range | lra].
Qed.

Lemma square_unit (x : R) : (0 <= x <= 1)%R -> (0 <= rnd (x * x) <= 1)%R.
Proof. intros H. apply rnd_unit. nra. Qed.

(** After [k] entries the running sum lies between [0] and [k]. *)
Lemma sumSquares_range (dataArray : list Byte.byte) :
  forall (k : nat) (sum : R),
    (Z.of_nat (k + List.length dataArray) <= 2 ^ 53)%Z ->
    (0 <= sum <= INR k)%R ->
    (0 <= sumSquares rnd dataArray sum <= INR (k + List.length dataArray))%R.
Proof.
  induction dataArray as [|b rest IH]; intros k sum Hk Hs; simpl.
  - now rewrite Nat.add_0_r.
  - simpl in Hk. replace (k + S (List.length rest))%nat
      with (S k + List.length rest)%nat by lia.
    apply IH; [lia|].
    pose proof (square_unit _ (normalized_unit b)) as Hq.
    split.
    + rewrite <- rnd_0. apply rnd_monotone. lra.
    + rewrite <- (rnd_exact (S k)) by lia. apply rnd_monotone.
      rewrite S_INR. lra.
Qed.

Lemma getVolume_range (dataArray : list Byte.byte) :
  dataArray <> [] ->
  (Z.of_nat (List.length dataArray) <= 2 ^ 53)%Z ->
  (0 <= getVolume rnd (Some dataArray) <= 1)%R.
Proof.
  intros Hne Hlen. unfold getVolume.
  assert (Hn : (0 < INR (List.length dataArray))%R).
  { apply lt_0_INR. destruct dataArray; [congruence | simpl; lia]. }
  pose proof (sumSquares_range dataArray 0 0%R) as Hs. simpl in Hs.
  specialize (Hs Hlen ltac:(lra)).
  assert (Hm : (0 <= rnd (sumSquares rnd dataArray 0 / INR (List.length dataArray)) <= 1)%R).
  { apply rnd_unit. apply div_unit; [exact Hs | exact Hn]. }
  apply rnd_unit. split.
  - apply sqrt_pos.
  - rewrite <- sqrt_1. apply sqrt_le_1_alt. lra.
Qed.

End LevelMeterFacts.

(* ================================================================== *)
(** ** Facts on the string primitives *)
(* ================================================================== *)

Lemma startsWith_empty (s : string) : startsWith EmptyString s = true.
Proof. destruct s; reflexivity. Qed.

Lemma startsWith_nil_inv (p : string) :
  startsWith p EmptyString = true -> p = EmptyString.
Proof. destruct p; simpl; [reflexivity | discriminate]. Qed.

(** The phrase found by [indexOf] does stand at the index returned. *)
Lemma indexOf_found (p : string) :
  forall (s : string) (idx : nat),
    indexOf p s = Some idx -> startsWith p (slice idx s) = true.
Proof.
  induction s as [|c s IH]; intros idx H; simpl in H.
  - destruct (startsWith p EmptyString) eqn:E; [|discriminate].
    injection H as <-. exact E.
  - destruct (startsWith p (String c s)) eqn:E.
    + injection H as <-. exact E.
    + destruct (indexOf p s) as [j|] eqn:Ej; [|discriminate].
      injection H as <-. simpl. now apply IH.
Qed.

(** ... and it is the first place where the phrase stands. *)
Lemma indexOf_first (p : string) :
  forall (s : string) (idx j : nat),
    indexOf p s = Some idx -> (j < idx)%nat -> startsWith p (slice j s) = false.
Proof.
  induction s as [|c s IH]; intros idx j H Hj; simpl in H.
  - destruct (startsWith p EmptyString); [injection H as <-; lia | discriminate].
  - destruct (startsWith p (String c s)) eqn:E; [injection H as <-; lia|].
    destruct (indexOf p s) as [i|] eqn:Ei; [|discriminate].
    injection H as <-. destruct j as [|j]; [exact E|].
    simpl. apply (IH i); [reflexivity | lia].
Qed.

Lemma includes_cons (p : string) (c : CodeUnit) (s : string) :
  includes p s = true -> includes p (String c s) = true.
Proof.
  unfold includes. simpl. destruct (startsWith p (String c s)); [reflexivity|].
  destruct (indexOf p s); [reflexivity | discriminate].
Qed.

Lemma includes_trimStart (p s : string) :
  includes p (trimStart s) = true -> includes p s = true.
Proof.
  induction s as [|c s IH]; simpl; [trivial|].
  destruct (isSpace c); [|trivial].
  intros H. apply includes_cons. now apply IH.
Qed.

Lemma trimEnd_cons (c : CodeUnit) (s : string) :
  trimEnd (String c s) = EmptyString \/
  trimEnd (String c s) = String c (trimEnd s).
Proof.
  simpl. destruct (trimEnd s); [destruct (isSpace c)|]; auto.
Qed.

Lemma startsWith_trimEnd (s : string) :
  forall p : string, startsWith p (trimEnd s) = true -> startsWith p s = true.
Proof.
  induction s as [|c s IH]; intros p H; [exact H|].
  destruct (trimEnd_cons c s) as [E|E]; rewrite E in H.
  - apply startsWith_nil_inv in H. subst p. reflexivity.
  - destruct p as [|a p]; [reflexivity|]. simpl in *.
    apply andb_true_iff in H as [Ha Hp]. rewrite Ha. simpl. now apply IH.
Qed.

Lemma includes_trimEnd (p s : string) :
  includes p (trimEnd s) = true -> includes p s = true.
Proof.
  induction s as [|c s IH]; [trivial|].
  destruct (trimEnd_cons c s) as [E|E]; rewrite E.
  - unfold includes at 1. simpl.
    destruct (startsWith p EmptyString) eqn:Ep; [|discriminate].
    apply startsWith_nil_inv in Ep. subst p. reflexivity.
  - intros H. unfold includes in H. simpl in H.
    destruct (startsWith p (String c (trimEnd s))) eqn:Ep.
    + rewrite <- E in Ep. apply startsWith_trimEnd in Ep.
      unfold includes. simpl indexOf. simpl in Ep. now rewrite Ep.
    + apply includes_cons. apply IH. unfold includes.
      destruct (indexOf p (trimEnd s)); [reflexivity | discriminate].
Qed.

Lemma includes_trim (p s : string) :
  includes p (trim s) = true -> includes p s = true.
Proof.
  intros H. apply includes_trimStart, includes_trimEnd. exact H.
Qed.

(** [includes] is substring containment. *)
Lemma startsWith_spec (p : string) :
  forall s : string,
    startsWith p s = true <-> exists post, s = JsString.append p post.
Proof.
  induction p as [|a p IH]; intros s; simpl.
  - split; [intros _; now exists s | now destruct s].
  - destruct s as [|b s].
    + split; [discriminate | intros [post H]; discriminate].
    + rewrite andb_true_iff, IH. split.
      * intros [Hab [post ->]]. apply N.eqb_eq in Hab. subst b.
        now exists post.
      * intros [post H]. injection H as -> ->.
        split; [apply N.eqb_refl | now exists post].
Qed.

Lemma includes_spec (p s : string) : includes p s = true <-> occursIn p s.
Proof.
  unfold occursIn. split.
  - induction s as [|c s IH]; unfold includes; simpl.
    + destruct (startsWith p EmptyString) eqn:E; [|discriminate].
      intros _. apply startsWith_spec in E as [post E].
      now exists EmptyString, post.
    + destruct (startsWith p (String c s)) eqn:E.
      * intros _. apply startsWith_spec in E as [post E].
        now exists EmptyString, post.
      * intros H. destruct IH as (pre & post & ->).
        { unfold includes. destruct (indexOf p s); [reflexivity | discriminate]. }
        now exists (String c pre), post.
  - intros (pre & post & ->). induction pre as [|c pre IH]; simpl.
    + unfold includes.
      assert (E : startsWith p (JsString.append p post) = true)
        by (apply startsWith_spec; now exists post).
      destruct (JsString.append p post); simpl in *; now rewrite E.
    + now apply includes_cons.
Qed.

(** For a phrase with no white space at either end, trimming the text does
    not change whether the phrase occurs. *)
Lemma includes_nil_inv (p : string) :
  includes p EmptyString = true -> p = EmptyString.
Proof.
  unfold includes. simpl. destruct (startsWith p EmptyString) eqn:E;
    [intros _; now apply startsWith_nil_inv | discriminate].
Qed.

Lemma includes_trimStart_rev (p s : string) :
  firstNonSpace p = true ->
  includes p s = true -> includes p (trimStart s) = true.
Proof.
  intros Hp. induction s as [|c s IH]; simpl; [trivial|].
  destruct (isSpace c) eqn:Hc; [|trivial].
  intros H. apply IH. unfold includes in *. simpl in H.
  destruct (startsWith p (String c s)) eqn:E.
  - destruct p as [|a p]; [discriminate|]. simpl in *.
    apply andb_true_iff in E as [Hac _]. apply N.eqb_eq in Hac. subst a.
    rewrite Hc in Hp. discriminate.
  - destruct (indexOf p s); [reflexivity | discriminate].
Qed.

Lemma lastNonSpace_cons (a : CodeUnit) (p : string) :
  lastNonSpace (String a p) = true ->
  (p = EmptyString /\ isSpace a = false) \/
  (p <> EmptyString /\ lastNonSpace p = true).
Proof.
  simpl. destruct p as [|b p].
  - intros H. left. split; [reflexivity | now apply negb_true_iff].
  - intros H. right. split; [discriminate | exact H].
Qed.

Lemma startsWith_trimEnd_rev (s : string) :
  forall p : string,
    lastNonSpace p = true ->
    startsWith p s = true -> startsWith p (trimEnd s) = true.
Proof.
  induction s as [|c s IH]; intros p Hp H; [exact H|].
  destruct p as [|a p]; [discriminate|].
  change (N.eqb a c && startsWith p s = true) in H.
  apply andb_true_iff in H as [Hac Hps].
  pose proof Hac as Heq. apply N.eqb_eq in Heq. subst c.
  destruct (lastNonSpace_cons a p Hp) as [[-> Ha]|[Hne Hl]].
  - simpl. rewrite Ha. destruct (trimEnd s); simpl; now rewrite N.eqb_refl.
  - specialize (IH p Hl Hps). simpl.
    destruct (trimEnd s) as [|b r] eqn:E.
    + apply startsWith_nil_inv in IH. contradiction.
    + simpl. now rewrite N.eqb_refl.
Qed.

Lemma includes_trimEnd_rev (p s : string) :
  lastNonSpace p = true ->
  includes p s = true -> includes p (trimEnd s) = true.
Proof.
  intros Hp. induction s as [|c s IH]; [trivial|].
  intros H. unfold includes in H. simpl in H.
  destruct (startsWith p (String c s)) eqn:E.
  - apply (startsWith_trimEnd_rev _ _ Hp) in E.
    unfold includes. destruct (trimEnd (String c s)); simpl in *; now rewrite E.
  - assert (Hs : includes p s = true)
      by (unfold includes; destruct (indexOf p s); [reflexivity | discriminate]).
    specialize (IH Hs).
    destruct (trimEnd_cons c s) as [E0|E0].
    + simpl in E0. destruct (trimEnd s) as [|b r] eqn:Et.
      * apply includes_nil_inv in IH. subst p. discriminate.
      * discriminate.
    + rewrite E0. now apply includes_cons.
Qed.

Lemma includes_trim_iff (p s : string) :
  tightPhrase p = true ->
  includes p (trim s) = includes p s.
Proof.
  unfold tightPhrase. intros H. apply andb_true_iff in H as [Hf Hl].
  apply eq_true_iff_eq. split.
  - apply includes_trim.
  - intros Hs. unfold trim.
    apply includes_trimEnd_rev; [exact Hl|].
    now apply includes_trimStart_rev.
Qed.

(** The two tests of the hook are substring containment in the lower-cased
    text. *)
Lemma containsPhrase_spec {cm : CaseMapping} (phrases : list string)
    (text : string) :
  forallb tightPhrase phrases = true ->
  existsb (fun phrase => includes phrase (trim (toLowerCase text))) phrases = true
  <-> exists phrase, In phrase phrases /\ occursIn phrase (toLowerCase text).
Proof.
  intros Htight. rewrite existsb_exists.
  split; intros (p & Hin & Hp); exists p; (split; [exact Hin|]).
  - apply includes_spec. now apply includes_trim.
  - rewrite includes_trim_iff; [now apply includes_spec|].
    rewrite forallb_forall in Htight. now apply Htight.
Qed.

Lemma containsWakeWord_spec {cm : CaseMapping} (text : string) :
  containsWakeWord text = true
  <-> exists phrase, In phrase WAKE_PHRASES /\ occursIn phrase (toLowerCase text).
Proof. apply containsPhrase_spec. reflexivity. Qed.

Lemma containsEndPhrase_spec {cm : CaseMapping} (text : string) :
  containsEndPhrase text = true
  <-> exists phrase, In phrase END_PHRASES /\ occursIn phrase (toLowerCase text).
Proof. apply containsPhrase_spec. reflexivity. Qed.

(** What the loop of [extractAfterWakeWord] returns once some phrase of the
    list occurs in the lower-cased text. *)
Lemma extractAfter_found (phrases : list string) (text lower : string) :
  existsb (fun phrase => includes phrase lower) phrases = true ->
  exists (before : list string) (phrase : string) (after : list string)
         (idx : nat),
    phrases = before ++ phrase :: after /\
    (forall q, In q before -> includes q lower = false) /\
    indexOf phrase lower = Some idx /\
    extractAfter phrases text lower
      = trim (slice (idx + JsString.length phrase) text).
Proof.
  induction phrases as [|p ps IH]; simpl; [discriminate|].
  intros H. destruct (indexOf p lower) as [idx|] eqn:E.
  - exists [], p, ps, idx. repeat split; auto. intros q [].
  - unfold includes in H at 1. rewrite E in H. simpl in H.
    destruct (IH H) as (before & q & after & j & -> & Hb & Hj & Hx).
    exists (p :: before), q, after, j. repeat split; auto.
    intros r [<-|Hr]; [unfold includes; now rewrite E | now apply Hb].
Qed.

Lemma existsb_includes_trim (phrases : list string) (s : string) :
  existsb (fun phrase => includes phrase (trim s)) phrases = true ->
  existsb (fun phrase => includes phrase s) phrases = true.
Proof.
  rewrite !existsb_exists. intros (p & Hin & Hp).
  exists p. split; [exact Hin | now apply includes_trim].
Qed.


(* ================================================================== *)
(** ** Running handlers *)
(* ================================================================== *)

Lemma exec_bind {A B} (c : Act A) (k : A -> Act B) (h : Hook) :
  exec (bind c k) h = exec (k (result c h)) (exec c h).
Proof.
  unfold exec, result, bind. destruct (c h) as [[a h1] l1].
  simpl. destruct (k a h1) as [[b h2] l2]. reflexivity.
Qed.

Lemma effects_bind {A B} (c : Act A) (k : A -> Act B) (h : Hook) :
  effects (bind c k) h = effects c h ++ effects (k (result c h)) (exec c h).
Proof.
  unfold effects, exec, result, bind. destruct (c h) as [[a h1] l1].
  simpl. destruct (k a h1) as [[b h2] l2]. reflexivity.
Qed.

(** Open a hook into its fields and compute. *)
Ltac open_hook h :=
  let v := fresh "v" in let d := fresh "d" in let i := fresh "i" in
  destruct h as [v d i]; destruct v, d, i;
  cbn [view vad io status mode conversationState isConnected transcription
       response error volume chatHistory isSpeaking silenceStart speechStart
       vadEnabled isRecording cooldownUntil currentResponse wsOpen recorder
       hasStream chunks] in *;
  subst.

Ltac run := unfold exec, effects, result; cbn.

(* ================================================================== *)
(** ** Conversation gate *)
(* ================================================================== *)

(** Whatever the socket, a transcription with an end phrase ends the
    conversation, and the only message that can leave is the end signal. *)
Lemma end_phrase_ends {cm : CaseMapping} (now : Z) (text : string) (h : Hook) :
  containsEndPhrase text = true ->
  let h' := exec (onTranscription now text) h in
  conversationState (view h') = Waiting /\
  status (view h') = Idle /\
  chatHistory (view h') = chatHistory (view h) /\
  effects (onTranscription now text) h =
    (if wsOpen (io h) then [WsSend OutEndConversation] else []).
Proof.
  intros Hend. unfold onTranscription. rewrite Hend.
  open_hook h. run. destruct wsOpen0; cbn; repeat split.
Qed.

(** C1. A transcription whose lower-cased text contains an end phrase ends
    the conversation, whether or not it also contains a wake phrase and
    whatever the conversation state: the state becomes waiting, the end
    signal is sent and it is the only message sent, the status is idle and
    the history is untouched. The conversation is not activated and no query
    is dispatched, because the end-phrase test comes first. The handler is
    the [onmessage] of the socket held in [wsRef], and the browser delivers
    a message only while that socket is open: this is the first
    hypothesis. *)
Theorem end_phrase_takes_priority {cm : CaseMapping} (now : Z) (text : string)
    (h : Hook) (phrase : string) :
  wsOpen (io h) = true ->
  In phrase END_PHRASES ->
  occursIn phrase (toLowerCase text) ->
  let h' := exec (onTranscription now text) h in
  conversationState (view h') = Waiting /\
  conversationState (view h') <> Active /\
  effects (onTranscription now text) h = [WsSend OutEndConversation] /\
  status (view h') = Idle /\
  chatHistory (view h') = chatHistory (view h).
Proof.
  intros Hopen Hin Hocc.
  assert (Hend : containsEndPhrase text = true)
    by (apply containsEndPhrase_spec; now exists phrase).
  destruct (end_phrase_ends now text h Hend) as (Hs & Hi & Hh & He).
  cbv zeta. rewrite He, Hopen, Hs. repeat split; try assumption.
  discriminate.
Qed.

Lemma end_phrase_takes_priority_witness :
  let text := "Thank you Zed, hey Zed" in
  let h := withConversationState Active listeningHook in
  containsWakeWord text = true /\
  conversationState (view (exec (onTranscription 1000 text) h)) = Waiting /\
  effects (onTranscription 1000 text) h = [WsSend OutEndConversation].
Proof.
  cbv zeta. split; [reflexivity|].
  destruct (end_phrase_takes_priority (cm := basicCase) 1000
              "Thank you Zed, hey Zed"
              (withConversationState Active listeningHook) "thank you zed")
    as (Hs & _ & He & _).
  - reflexivity.
  - left. reflexivity.
  - exists EmptyString, ", hey zed". reflexivity.
  - split; [exact Hs | exact He].
Defined.

(** The farewell scenario: an active conversation hears the end phrase. *)
Example farewell_scenario :
  let h := withConversationState Active listeningHook in
  let h' := exec (onTranscription 1000 "thank you zed") h in
  conversationState (view h') = Waiting /\
  status (view h') = Idle /\
  effects (onTranscription 1000 "thank you zed") h = [WsSend OutEndConversation].
Proof. vm_compute. repeat split. Qed.

(** C6. In state waiting, a transcription with neither a wake phrase nor an
    end phrase is dropped: nothing is sent, the history and the conversation
    state are untouched, and the status goes back to idle. *)
Theorem waiting_ignores_plain_text {cm : CaseMapping} (now : Z)
    (text : string) (h : Hook) :
  conversationState (view h) = Waiting ->
  containsWakeWord text = false ->
  containsEndPhrase text = false ->
  let h' := exec (onTranscription now text) h in
  effects (onTranscription now text) h = [] /\
  chatHistory (view h') = chatHistory (view h) /\
  conversationState (view h') = Waiting /\
  status (view h') = Idle.
Proof.
  intros Hw Hwake Hend. unfold onTranscription. rewrite Hend, Hwake.
  open_hook h. run. repeat split.
Qed.

Lemma waiting_ignores_plain_text_witness :
  let h := withStatus Processing listeningHook in
  effects (onTranscription 1000 "what is variance") h = [] /\
  chatHistory (view (exec (onTranscription 1000 "what is variance") h))
    = chatHistory (view h) /\
  conversationState (view (exec (onTranscription 1000 "what is variance") h))
    = Waiting /\
  status (view (exec (onTranscription 1000 "what is variance") h)) = Idle.
Proof.
  apply (waiting_ignores_plain_text 1000 "what is variance"
           (withStatus Processing listeningHook)); reflexivity.
Defined.

(* ================================================================== *)
(** ** Public actions *)
(* ================================================================== *)

(** C8 (as amended). [clear] empties the transcription, the response, the
    error, the history and the accumulator, sends nothing, and leaves
    everything else as it was, the conversation state included: an active
    conversation stays active. *)
Theorem clear_keeps_conversation_state (h : Hook) :
  let h' := exec clear h in
  conversationState (view h') = conversationState (view h) /\
  transcription (view h') = EmptyString /\
  response (view h') = EmptyString /\
  error (view h') = None /\
  chatHistory (view h') = [] /\
  currentResponse (io h') = EmptyString /\
  status (view h') = status (view h) /\
  mode (view h') = mode (view h) /\
  isConnected (view h') = isConnected (view h) /\
  volume (view h') = volume (view h) /\
  vad h' = vad h /\
  wsOpen (io h') = wsOpen (io h) /\
  recorder (io h') = recorder (io h) /\
  hasStream (io h') = hasStream (io h) /\
  chunks (io h') = chunks (io h) /\
  effects clear h = [].
Proof. open_hook h. run. repeat split. Qed.

(** C8 as stated fails: after [clear] an active conversation is not
    waiting. *)
Lemma clear_does_not_end_conversation :
  let h := withConversationState Active listeningHook in
  conversationState (view h) = Active /\
  conversationState (view (exec clear h)) = Active /\
  conversationState (view (exec clear h)) <> Waiting.
Proof. vm_compute. repeat split; congruence. Qed.

(** C10. [sendText] with a non-blank text while the socket is not open: a
    message with role user and the text as its content is appended, the
    transcription is the text, the accumulator and the response are reset,
    nothing is sent, the error is set and the status is error. A text is
    blank when [trim] leaves nothing of it, that is when it is made of
    white space and line terminators only. *)
Theorem sendText_offline (now : Z) (text : string) (h : Hook) :
  trim text <> EmptyString ->
  wsOpen (io h) = false ->
  let h' := exec (sendText now text) h in
  chatHistory (view h')
    = chatHistory (view h)
      ++ [{| msg_idTime := now; msg_role := User; msg_content := text;
             msg_timestamp := now |}] /\
  transcription (view h') = text /\
  response (view h') = EmptyString /\
  currentResponse (io h') = EmptyString /\
  effects (sendText now text) h = [] /\
  error (view h') = Some "Not connected to server" /\
  status (view h') = Error.
Proof.
  intros Hblank Hclosed. unfold sendText.
  destruct (trim text) eqn:Ht; [congruence|].
  open_hook h. run. repeat split.
Qed.

Lemma sendText_offline_witness :
  let h' := exec (sendText 1000 "what is variance") initialHook in
  chatHistory (view h')
    = [{| msg_idTime := 1000; msg_role := User;
          msg_content := "what is variance"; msg_timestamp := 1000 |}] /\
  transcription (view h') = "what is variance" /\
  effects (sendText 1000 "what is variance") initialHook = [] /\
  error (view h') = Some "Not connected to server" /\
  status (view h') = Error.
Proof.
  destruct (sendText_offline 1000 "what is variance" initialHook)
    as (Hh & Ht & _ & _ & He & Hr & Hs).
  - vm_compute. discriminate.
  - reflexivity.
  - repeat split; assumption.
Defined.

(** A text of no-break spaces, ideographic spaces and line separators is
    blank: [sendText] returns at once. *)
Example sendText_blank_unicode (now : Z) (h : Hook) :
  let text := String 160 (String 12288 (String 8232 (String 32 EmptyString))) in
  sendText now text h = (tt, h, []).
Proof. reflexivity. Qed.

(* ================================================================== *)
(** ** Response assembly *)
(* ================================================================== *)

Lemma append_empty_r (s : string) : JsString.append s EmptyString = s.
Proof. induction s as [|c s IH]; simpl; [reflexivity | now rewrite IH]. Qed.

Lemma fold_append_from (tokens : list string) (acc : string) :
  fold_left JsString.append tokens acc =
  JsString.append acc (fold_left JsString.append tokens EmptyString).
Proof.
  revert acc. induction tokens as [|t ts IH]; intros acc; simpl.
  - now rewrite append_empty_r.
  - rewrite IH. rewrite (IH t).
    clear IH. induction acc as [|c acc IHacc]; simpl; [reflexivity|].
    now rewrite IHacc.
Qed.

(** Incremental tokens only touch the accumulator, the shown response and
    the status. *)
Lemma streamTokens_spec {cm : CaseMapping} (now : Z) (tokens : list string) :
  forall h : Hook,
    currentResponse (io (exec (streamTokens now tokens) h))
      = fold_left JsString.append tokens (currentResponse (io h)) /\
    chatHistory (view (exec (streamTokens now tokens) h)) = chatHistory (view h) /\
    vad (exec (streamTokens now tokens) h) = vad h /\
    effects (streamTokens now tokens) h = [].
Proof.
  induction tokens as [|t ts IH]; intros h.
  - open_hook h. run. repeat split.
  - cbn [streamTokens]. rewrite exec_bind, effects_bind.
    destruct (IH (exec (onMessage now (Response (Some t) false None None)) h))
      as (Hc & Hh & Hv & He).
    rewrite Hc, Hh, Hv, He. clear IH Hc Hh Hv He.
    open_hook h. run. repeat split.
Qed.

(** A turn starts when a user message is appended, by a transcription or by
    [sendText]; the accumulator is empty from then on. *)
Lemma turn_start_resets_accumulator {cm : CaseMapping} (now : Z)
    (text : string) (h : Hook) :
  (chatHistory (view (exec (onTranscription now text) h))
     = chatHistory (view h) ++ [userMessage now text] \/
   chatHistory (view (exec (onTranscription now text) h))
     = chatHistory (view h) ++ [userMessage now (extractAfterWakeWord text)] ->
   currentResponse (io (exec (onTranscription now text) h)) = EmptyString) /\
  (trim text <> EmptyString ->
   currentResponse (io (exec (sendText now text) h)) = EmptyString).
Proof.
  assert (Hgrow : forall (l : list ChatMessage) (m : ChatMessage),
             l <> l ++ [m]).
  { intros l m H. apply (f_equal (@List.length _)) in H.
    rewrite length_app in H. simpl in H. lia. }
  split.
  - unfold onTranscription. cbv zeta.
    destruct (containsEndPhrase text), (containsWakeWord text),
      (truthy (extractAfterWakeWord text)
       && (2 <? JsString.length (extractAfterWakeWord text))%nat);
      open_hook h; destruct conversationState0, wsOpen0; run;
      intros [H|H]; solve [reflexivity | now apply Hgrow in H].
  - intros Hblank. unfold sendText.
    destruct (trim text); [congruence|].
    open_hook h. run. destruct wsOpen0; reflexivity.
Qed.

(** C4 (as amended). A terminal response promotes the server-supplied full
    text when it is a non-empty string, otherwise the concatenation, left to
    right, of the tokens received since the accumulator was reset at the
    start of the turn. A message with role assistant and that content is
    appended, unless the content is empty: then nothing is appended. The
    accumulator is reset. When the terminal event does not announce audio
    ([has_audio] false or missing), the status becomes idle and the
    cool-down ends 2000 ms after the current time; when it announces audio,
    the status and the cool-down are left as they were. *)
Theorem terminal_response_promotes {cm : CaseMapping} (now : Z) (h0 : Hook)
    (tokens : list string) (text full_text : option string)
    (has_audio : option bool) :
  currentResponse (io h0) = EmptyString ->
  let h := exec (streamTokens now tokens) h0 in
  let h' := exec (onMessage now (Response text true full_text has_audio)) h in
  let content :=
    match full_text with
    | Some ft => if truthy ft then ft else concatTokens tokens
    | None => concatTokens tokens
    end in
  chatHistory (view h') =
    (if truthy content
     then chatHistory (view h0)
          ++ [{| msg_idTime := now; msg_role := Assistant;
                 msg_content := content; msg_timestamp := now |}]
     else chatHistory (view h0)) /\
  currentResponse (io h') = EmptyString /\
  effects (onMessage now (Response text true full_text has_audio)) h = [] /\
  (has_audio <> Some true ->
     status (view h') = Idle /\ cooldownUntil (vad h') = (now + 2000)%Z) /\
  (has_audio = Some true ->
     status (view h') = status (view h) /\
     cooldownUntil (vad h') = cooldownUntil (vad h0)).
Proof.
  intros Hreset h.
  destruct (streamTokens_spec now tokens h0) as (Hc & Hh & Hv & _).
  fold h in Hc, Hh, Hv. rewrite Hreset in Hc. fold (concatTokens tokens) in Hc.
  rewrite <- Hh. replace (cooldownUntil (vad h0)) with (cooldownUntil (vad h))
    by now rewrite Hv.
  clearbody h. clear Hreset Hh Hv h0.
  open_hook h. unfold concatTokens.
  destruct full_text as [ft|]; [destruct ft as [|c ft]|];
    run; destruct (fold_left JsString.append tokens EmptyString);
    destruct has_audio as [[|]|]; cbn; repeat split; congruence.
Qed.

Lemma terminal_response_promotes_witness :
  let h := exec (streamTokens 1000 ["Var"; "iance"]) listeningHook in
  let h' := exec (onMessage 1000 (Response None true None (Some false))) h in
  chatHistory (view h')
    = [{| msg_idTime := 1000; msg_role := Assistant;
          msg_content := "Variance"; msg_timestamp := 1000 |}] /\
  status (view h') = Idle /\ cooldownUntil (vad h') = 3000%Z.
Proof.
  destruct (terminal_response_promotes (cm := basicCase) 1000 listeningHook
              ["Var"; "iance"] None None (Some false) eq_refl)
    as (Hh & _ & _ & Hidle & _).
  split; [exact Hh | apply Hidle; discriminate].
Defined.

(** C4 as stated fails on a full text that is supplied and empty: after the
    tokens Var and iance the terminal event [{done: true, full_text: EMPTY}]
    promotes the accumulated text, not the full text. It also fails when
    nothing was accumulated and no full text comes: no message is promoted
    at all. *)
Lemma empty_full_text_falls_back :
  let h := exec (streamTokens 1000 ["Var"; "iance"]) listeningHook in
  let supplied := Response None true (Some EmptyString) (Some false) in
  let bare := Response None true None (Some false) in
  (exists m : ChatMessage,
     chatHistory (view (exec (onMessage 1000 supplied) h)) = [m] /\
     msg_role m = Assistant /\
     msg_content m = "Variance" /\
     msg_content m <> EmptyString) /\
  chatHistory (view (exec (onMessage 1000 bare) listeningHook)) = [].
Proof.
  cbv zeta. split; [|reflexivity].
  eexists. split; [reflexivity|]. repeat split. discriminate.
Qed.

(** The scenario with a full text and no audio. *)
Example terminal_full_text_scenario :
  let m := Response None true (Some "Variance measures spread.") (Some false) in
  let h' := exec (onMessage 5000 m) (withStatus Speaking listeningHook) in
  chatHistory (view h')
    = [{| msg_idTime := 5000; msg_role := Assistant;
          msg_content := "Variance measures spread."; msg_timestamp := 5000 |}] /\
  status (view h') = Idle /\ cooldownUntil (vad h') = 7000%Z.
Proof. vm_compute. repeat split. Qed.

(* ================================================================== *)
(** ** Wake word *)
(* ================================================================== *)

(** The wake branch of the transcription handler. In state waiting, a
    transcription with a wake phrase and no end phrase activates the
    conversation. The payload is the original text cut at the index that
    follows the first occurrence, in the lower-cased text, of the matched
    wake phrase, and trimmed; the matched phrase is the first phrase of the
    list that occurs in the lower-cased text. A payload of more than two
    code units becomes the transcription and the content of a new user
    message, the status is processing, and the payload is written on the
    socket as a text query (the socket is open whenever a message is
    delivered). A shorter payload is only acknowledged: nothing is appended
    and nothing is sent. *)
Lemma wake_word_activates {cm : CaseMapping} (now : Z) (text : string)
    (h : Hook) :
  conversationState (view h) = Waiting ->
  containsWakeWord text = true ->
  containsEndPhrase text = false ->
  let h' := exec (onTranscription now text) h in
  let payload := extractAfterWakeWord text in
  conversationState (view h') = Active /\
  (exists (before : list string) (phrase : string) (after : list string)
          (idx : nat),
     WAKE_PHRASES = before ++ phrase :: after /\
     (forall q, In q before -> includes q (toLowerCase text) = false) /\
     startsWith phrase (slice idx (toLowerCase text)) = true /\
     (forall j, (j < idx)%nat ->
        startsWith phrase (slice j (toLowerCase text)) = false) /\
     payload = trim (slice (idx + JsString.length phrase) text)) /\
  ((2 < JsString.length payload)%nat ->
     chatHistory (view h')
       = chatHistory (view h)
         ++ [{| msg_idTime := now; msg_role := User; msg_content := payload;
                msg_timestamp := now |}] /\
     transcription (view h') = payload /\
     status (view h') = Processing /\
     effects (onTranscription now text) h =
       (if wsOpen (io h) then [WsSend (OutText payload)] else [])) /\
  ((JsString.length payload <= 2)%nat ->
     chatHistory (view h') = chatHistory (view h) /\
     status (view h') = Idle /\
     effects (onTranscription now text) h = []).
Proof.
  intros Hw Hwake Hend h' payload. subst h'.
  assert (Hfound : exists (before : list string) (phrase : string)
                          (after : list string) (idx : nat),
     WAKE_PHRASES = before ++ phrase :: after /\
     (forall q, In q before -> includes q (toLowerCase text) = false) /\
     startsWith phrase (slice idx (toLowerCase text)) = true /\
     (forall j, (j < idx)%nat ->
        startsWith phrase (slice j (toLowerCase text)) = false) /\
     payload = trim (slice (idx + JsString.length phrase) text)).
  { unfold containsWakeWord in Hwake. apply existsb_includes_trim in Hwake.
    destruct (extractAfter_found WAKE_PHRASES text _ Hwake)
      as (before & p & after & idx & Hsplit & Hbefore & Hidx & Hx).
    exists before, p, after, idx. repeat split; auto.
    - now apply indexOf_found.
    - intros j Hj. now apply (indexOf_first p _ idx). }
  unfold onTranscription. cbv zeta. rewrite Hend, Hwake.
  fold payload. clearbody payload.
  assert (Hgo : truthy payload && (2 <? JsString.length payload)%nat = true
                <-> (2 < JsString.length payload)%nat).
  { destruct payload as [|c r]; simpl.
    - split; [discriminate | lia].
    - rewrite Nat.ltb_lt. reflexivity. }
  destruct (truthy payload && (2 <? JsString.length payload)%nat).
  - assert (Hlen : (2 < JsString.length payload)%nat) by now apply Hgo.
    open_hook h. run. destruct wsOpen0; cbn.
    all: split; [reflexivity|]; split; [assumption|]; split;
      [intros _; repeat split | intros Hs; lia].
  - assert (Hlen : ~ (2 < JsString.length payload)%nat)
      by (intros Hc; apply Hgo in Hc; discriminate).
    open_hook h. run. split; [reflexivity|]; split; [assumption|]; split;
      [intros Hc; contradiction | intros _; repeat split].
Qed.

(** The scenario of the wake phrase followed by a question. *)
Example wake_word_query :
  let text := "Hey Zed what is variance" in
  let h' := exec (onTranscription 1000 text) listeningHook in
  conversationState (view h') = Active /\
  extractAfterWakeWord text = "what is variance" /\
  chatHistory (view h')
    = [{| msg_idTime := 1000; msg_role := User;
          msg_content := "what is variance"; msg_timestamp := 1000 |}] /\
  effects (onTranscription 1000 text) listeningHook
    = [WsSend (OutText "what is variance")].
Proof. vm_compute. repeat split. Qed.

(** A bare wake phrase is acknowledged and nothing is dispatched. *)
Example wake_word_alone :
  let h' := exec (onTranscription 1000 "hey zed.") listeningHook in
  conversationState (view h') = Active /\
  chatHistory (view h') = [] /\
  status (view h') = Idle /\
  effects (onTranscription 1000 "hey zed.") listeningHook = [].
Proof. vm_compute. repeat split. Qed.

(** The length of the payload is counted in code units after trimming: two
    ideographs (U+4F60 U+597D) between no-break spaces are a payload of
    length two, which is only acknowledged. *)
Example wake_word_short_payload :
  let text :=
    JsString.append "hey zed"
      (String 160 (String 20320 (String 22909 (String 160 EmptyString)))) in
  let h' := exec (onTranscription 1000 text) listeningHook in
  extractAfterWakeWord text = String 20320 (String 22909 EmptyString) /\
  conversationState (view h') = Active /\
  chatHistory (view h') = [] /\
  effects (onTranscription 1000 text) listeningHook = [].
Proof. vm_compute. repeat split. Qed.

(** C5. The payload is cut out of the original text at an index found in
    the lower-cased text. Lower-casing U+0130 (capital I with dot above)
    gives two code units, so after two of them every index of the
    lower-cased text is two ahead of the original: in state waiting the
    transcription of U+0130 U+0130 followed by [ hey zed what is variance]
    activates the conversation and dispatches [hat is variance], not the
    text that follows the wake phrase. *)
Theorem wake_payload_offset :
  let text := String 304 (String 304 " hey zed what is variance") in
  let h' := exec (onTranscription 1000 text) listeningHook in
  toLowerCase text
    = String 105 (String 775 (String 105 (String 775
        " hey zed what is variance"))) /\
  containsWakeWord text = true /\
  containsEndPhrase text = false /\
  conversationState (view h') = Active /\
  extractAfterWakeWord text = "hat is variance" /\
  chatHistory (view h')
    = [{| msg_idTime := 1000; msg_role := User;
          msg_content := "hat is variance"; msg_timestamp := 1000 |}] /\
  effects (onTranscription 1000 text) listeningHook
    = [WsSend (OutText "hat is variance")].
Proof. vm_compute. repeat split. Qed.

(* ================================================================== *)
(** ** Voice-activity detector *)
(* ================================================================== *)

Lemma Qltb_lt (x y : Q) : Qltb x y = true <-> x < y.
Proof.
  unfold Qltb. rewrite negb_true_iff. split; intros H.
  - apply Qnot_le_lt. intros Hle. apply Qle_bool_iff in Hle. congruence.
  - destruct (Qle_bool y x) eqn:E; [|reflexivity].
    apply Qle_bool_iff in E. exfalso. exact (Qlt_not_le _ _ H E).
Qed.

Lemma Qltb_ge (x y : Q) : Qltb x y = false <-> y <= x.
Proof.
  unfold Qltb. rewrite negb_false_iff. apply Qle_bool_iff.
Qed.


#[local] Arguments Qltb : simpl never.

Lemma canListen_eligible (now : Z) (h : Hook) :
  canListen now h = true <-> eligible now h.
Proof.
  unfold canListen, eligible, notBusy.
  rewrite !andb_true_iff, !negb_true_iff, Z.ltb_ge.
  destruct (status (view h)); intuition congruence.
Qed.

(** Case analysis on the tests met while a firing runs. *)
Ltac unfold_tick :=
  cbv beta iota zeta delta
    [exec effects result startRequested bind ret modify read emit skip when
     setStatus setResponse setError setVolume
     volumeTick speechBranch silenceBranch stopRecordingInternal
     startRecordingInternal setupAudio canListen notBusy truthyTime timeOf
     onView onVad onIo withStatus withResponse withError withVolume
     withIsSpeaking withSilenceStart withSpeechStart withIsRecording
     withRecorder withHasStream withChunks
     view vad io status isSpeaking silenceStart speechStart vadEnabled
     isRecording cooldownUntil recorder hasStream
     fst snd andb negb];
  cbn [app].

Ltac unfold_tick_in H :=
  cbv beta iota zeta delta
    [exec effects result startRequested bind ret modify read emit skip when
     setStatus setResponse setError setVolume
     volumeTick speechBranch silenceBranch stopRecordingInternal
     startRecordingInternal setupAudio canListen notBusy truthyTime timeOf
     onView onVad onIo withStatus withResponse withError withVolume
     withIsSpeaking withSilenceStart withSpeechStart withIsRecording
     withRecorder withHasStream withChunks
     view vad io status isSpeaking silenceStart speechStart vadEnabled
     isRecording cooldownUntil recorder hasStream
     fst snd andb negb] in H;
  cbn [app] in H.

Ltac tick_case_of T :=
  match T with
  | context [if ?b then _ else _] => is_var b; destruct b
  | context [if Qltb ?a ?b then _ else _] =>
      let E := fresh "E" in destruct (Qltb a b) eqn:E
  | context [if (?a <? ?b)%Z then _ else _] =>
      let E := fresh "E" in destruct (a <? b)%Z eqn:E
  | context [if (?a =? ?b)%Z then _ else _] =>
      let E := fresh "E" in destruct (a =? b)%Z eqn:E
  | context [if micGranted ?d then _ else _] =>
      let E := fresh "E" in destruct (micGranted d) eqn:E
  | context [if recorderOk ?d then _ else _] =>
      let E := fresh "E" in destruct (recorderOk d) eqn:E
  | context [match ?o with Some _ => _ | None => _ end] =>
      is_var o; destruct o
  | context [match ?r with RecInactive => _ | RecRecording => _ end] =>
      is_var r; destruct r
  | context [match ?s with Idle => _ | _ => _ end] =>
      is_var s; destruct s
  end.

Ltac tick_case := match goal with |- ?G => tick_case_of G end.
Ltac tick_case_in H := let T := type of H in tick_case_of T.

(** Analysis of a goal that mentions runs of the interval callback. *)
Ltac tick_cases h :=
  open_hook h; unfold_tick; repeat (tick_case; unfold_tick).

(** The same on one run of [volumeTick], named and analysed once. *)
Ltac tick_run h :=
  open_hook h; unfold exec, effects, result;
  match goal with
  | |- context [volumeTick ?cfg ?dev ?x ?s] =>
      let Hrun := fresh "Hrun" in
      let u := fresh "u" in
      let h' := fresh "h'" in
      let l := fresh "l" in
      destruct (volumeTick cfg dev x s) as [[u h'] l] eqn:Hrun;
      cbn [fst snd];
      unfold_tick_in Hrun;
      repeat (tick_case_in Hrun; unfold_tick_in Hrun);
      injection Hrun as <- <- <-
  end;
  cbn [view vad io status isSpeaking silenceStart speechStart vadEnabled
       isRecording cooldownUntil recorder hasStream].

(** The speech branch logs nothing; the silence branch can only log a stop
    of the recorder. *)
Lemma speechBranch_silent (cfg : Config) (x : Sample) (h : Hook) :
  effects (speechBranch cfg x) h = [].
Proof. tick_cases h; reflexivity. Qed.

Lemma tick_effects (cfg : Config) (dev : Device) (x : Sample) (h : Hook) :
  In RecorderStart (effects (volumeTick cfg dev x) h) ->
  startRequested cfg x h = true.
Proof.
  tick_cases h; intros H; cbn in H; intuition (try discriminate; auto).
Qed.

Lemma startRequested_canListen (cfg : Config) (x : Sample) (h : Hook) :
  startRequested cfg x h = true -> canListen (clock x) h = true.
Proof.
  tick_cases h; intros H; (discriminate || reflexivity).
Qed.

Ltac z_bools :=
  repeat match goal with
         | H : (_ <? _)%Z = true |- _ => apply Z.ltb_lt in H
         | H : (_ <? _)%Z = false |- _ => apply Z.ltb_ge in H
         | H : (_ =? _)%Z = true |- _ => apply Z.eqb_eq in H
         | H : (_ =? _)%Z = false |- _ => apply Z.eqb_neq in H
         end.

Ltac tick_done :=
  z_bools; cbn [notBusy] in *;
  repeat split; intros; try congruence; try lia.

Ltac tick_auto h := tick_run h; tick_done.

(** No firing moves the end of the cool-down. *)
Lemma tick_cooldown (cfg : Config) (dev : Device) (x : Sample) (h : Hook) :
  cooldownUntil (vad (exec (volumeTick cfg dev x) h)) = cooldownUntil (vad h).
Proof. tick_auto h. Qed.

(** During the cool-down a firing asks for no recording and starts none. *)
Lemma tick_in_cooldown (cfg : Config) (dev : Device) (x : Sample) (h : Hook) :
  (clock x < cooldownUntil (vad h))%Z ->
  startRequested cfg x h = false /\
  (isRecording (vad h) = false ->
   isRecording (vad (exec (volumeTick cfg dev x) h)) = false).
Proof.
  intros H. split.
  - tick_cases h; tick_done.
  - tick_auto h.
Qed.

Lemma volumeTicks_cons (cfg : Config) (dev : Device) (x : Sample)
    (xs : list Sample) (h : Hook) :
  exec (volumeTicks cfg dev (x :: xs)) h
    = exec (volumeTicks cfg dev xs) (exec (volumeTick cfg dev x) h) /\
  effects (volumeTicks cfg dev (x :: xs)) h
    = effects (volumeTick cfg dev x) h
      ++ effects (volumeTicks cfg dev xs) (exec (volumeTick cfg dev x) h).
Proof. cbn [volumeTicks]. now rewrite exec_bind, effects_bind. Qed.


Lemma cooldown_blocks_run (cfg : Config) (dev : Device) (xs : list Sample) :
  forall h : Hook,
    (forall x, In x xs -> (clock x < cooldownUntil (vad h))%Z) ->
    ~ In RecorderStart (effects (volumeTicks cfg dev xs) h) /\
    (isRecording (vad h) = false ->
     isRecording (vad (exec (volumeTicks cfg dev xs) h)) = false).
Proof.
  induction xs as [|x xs IH]; intros h Hcool.
  - split; [intros [] | trivial].
  - destruct (volumeTicks_cons cfg dev x xs h) as [-> ->].
    destruct (tick_in_cooldown cfg dev x h) as [Hreq Hrec];
      [apply Hcool; now left|].
    destruct (IH (exec (volumeTick cfg dev x) h)) as [Hno Hrec'].
    { intros y Hy. rewrite tick_cooldown. apply Hcool. now right. }
    split.
    + intros Hin. apply in_app_or in Hin as [Hin|Hin]; [|now apply Hno].
      apply tick_effects in Hin. congruence.
    + intros H0. apply Hrec', Hrec, H0.
Qed.

(** What guards the detector. A firing calls for a recording, and a
    fortiori starts the recorder, only in a state where [vadEnabledRef] is
    set, [isRecordingRef] is not, the cool-down is over and the status is
    neither processing nor speaking. Hence a run of firings that all fall
    within the cool-down starts no recording, whatever the levels; if
    [isRecordingRef] was not set, it is not afterwards. The mode itself is
    not read. *)
Lemma vad_starts_only_when_eligible (cfg : Config) (dev : Device) :
  (forall (x : Sample) (h : Hook),
     startRequested cfg x h = true \/
     In RecorderStart (effects (volumeTick cfg dev x) h) ->
     eligible (clock x) h) /\
  (forall (xs : list Sample) (h : Hook),
     (forall x, In x xs -> (clock x < cooldownUntil (vad h))%Z) ->
     ~ In RecorderStart (effects (volumeTicks cfg dev xs) h) /\
     (isRecording (vad h) = false ->
      isRecording (vad (exec (volumeTicks cfg dev xs) h)) = false)).
Proof.
  split.
  - intros x h [H|H]; apply canListen_eligible, startRequested_canListen with cfg.
    + exact H.
    + now apply tick_effects in H.
  - intros xs h. apply cooldown_blocks_run.
Qed.

Example cooldown_blocks_loud_run :
  let h := withCooldownUntil 10000 listeningHook in
  let xs := samplesEvery 50 (9 # 10) 1000 100 in
  ~ In RecorderStart (effects (volumeTicks DEFAULT_CONFIG goodDevice xs) h) /\
  isRecording (vad (exec (volumeTicks DEFAULT_CONFIG goodDevice xs) h)) = false.
Proof.
  destruct (vad_starts_only_when_eligible DEFAULT_CONFIG goodDevice) as [_ H].
  destruct (H (samplesEvery 50 (9 # 10) 1000 100)
              (withCooldownUntil 10000 listeningHook)) as [Hno Hrec].
  - intros x Hx. unfold samplesEvery in Hx. apply in_map_iff in Hx.
    destruct Hx as (i & <- & Hi). apply in_seq in Hi.
    change (1000 + 50 * Z.of_nat i < 10000)%Z. lia.
  - split; [exact Hno | apply Hrec; reflexivity].
Qed.

(** C2. The detector can run while the mode is push-to-talk. The mount
    effect enables it 500 ms after mount from a closure that holds the
    initial mode; when [setMode] has switched to push-to-talk in between,
    the detector is enabled all the same, and five loud firings start a
    recorder in push-to-talk mode. What decides is [vadEnabledRef], not the
    mode (see [vad_starts_only_when_eligible]). *)
Theorem detector_runs_in_push_to_talk :
  let firings := samplesEvery 50 (9 # 10) 1000 5 in
  let evs := (goodDevice, EvSetMode PushToTalk)
             :: (goodDevice, EvInitHandsFree)
             :: map (fun x => (goodDevice, EvTick x)) firings in
  let w := fst (runWorld DEFAULT_CONFIG evs initialWorld) in
  mode (view (hook w)) = PushToTalk /\
  vadEnabled (vad (hook w)) = true /\
  isRecording (vad (hook w)) = true /\
  status (view (hook w)) = Recording /\
  snd (runWorld DEFAULT_CONFIG evs initialWorld)
    = [GetUserMedia; RecorderStart].
Proof. vm_compute. repeat split. Qed.

(* ------------------------------------------------------------------ *)
(** *** Debounce of the speech start *)

Lemma speech_first_tick (cfg : Config) (dev : Device) (x : Sample) (h : Hook) :
  eligible (clock x) h -> loud cfg x ->
  speechStart (vad h) = None -> clock x <> 0%Z ->
  let h' := exec (volumeTick cfg dev x) h in
  effects (volumeTick cfg dev x) h = [] /\ speechPending (clock x) h' /\
  cooldownUntil (vad h') = cooldownUntil (vad h) /\
  hasStream (io h') = hasStream (io h).
Proof.
  unfold eligible, loud, speechPending.
  intros (Hv & Hr & Hc & Hp & Hs) Hloud Hstart Hx. apply Qltb_lt in Hloud.
  cbv zeta. tick_auto h.
Qed.

Lemma speech_wait_tick (cfg : Config) (dev : Device) (t0 : Z) (x : Sample)
    (h : Hook) :
  speechPending t0 h -> t0 <> 0%Z ->
  (cooldownUntil (vad h) <= clock x)%Z -> loud cfg x ->
  (clock x - t0 <= speechMinDuration cfg)%Z ->
  let h' := exec (volumeTick cfg dev x) h in
  effects (volumeTick cfg dev x) h = [] /\ speechPending t0 h' /\
  cooldownUntil (vad h') = cooldownUntil (vad h) /\
  hasStream (io h') = hasStream (io h).
Proof.
  unfold loud, speechPending.
  intros (Hv & Hr & Hb & Hs) Ht Hc Hloud Hx. apply Qltb_lt in Hloud.
  cbv zeta. tick_auto h.
Qed.

Lemma speech_low_tick (cfg : Config) (dev : Device) (t0 : Z) (x : Sample)
    (h : Hook) :
  speechPending t0 h ->
  (cooldownUntil (vad h) <= clock x)%Z -> level x <= vadThreshold cfg ->
  let h' := exec (volumeTick cfg dev x) h in
  effects (volumeTick cfg dev x) h = [] /\
  isRecording (vad h') = false /\ speechStart (vad h') = None.
Proof.
  unfold speechPending.
  intros (Hv & Hr & Hb & Hs) Hc Hlow. apply Qltb_ge in Hlow.
  cbv zeta. tick_auto h.
Qed.

Lemma speech_fire_tick (cfg : Config) (dev : Device) (t0 : Z) (x : Sample)
    (h : Hook) :
  speechPending t0 h -> t0 <> 0%Z ->
  (cooldownUntil (vad h) <= clock x)%Z -> loud cfg x ->
  (speechMinDuration cfg < clock x - t0)%Z ->
  hasStream (io h) = true -> recorderOk dev = true ->
  let h' := exec (volumeTick cfg dev x) h in
  effects (volumeTick cfg dev x) h = [RecorderStart] /\
  isRecording (vad h') = true /\ status (view h') = Recording.
Proof.
  unfold loud, speechPending.
  intros (Hv & Hr & Hb & Hs) Ht Hc Hloud Hx Hstream Hrec.
  apply Qltb_lt in Hloud. cbv zeta. tick_auto h.
Qed.

Lemma speech_wait_ticks (cfg : Config) (dev : Device) (t0 : Z)
    (xs : list Sample) :
  forall h : Hook,
    speechPending t0 h -> t0 <> 0%Z ->
    (forall x, In x xs ->
       (cooldownUntil (vad h) <= clock x)%Z /\ loud cfg x /\
       (clock x - t0 <= speechMinDuration cfg)%Z) ->
    let h' := exec (volumeTicks cfg dev xs) h in
    effects (volumeTicks cfg dev xs) h = [] /\ speechPending t0 h' /\
    cooldownUntil (vad h') = cooldownUntil (vad h) /\
    hasStream (io h') = hasStream (io h).
Proof.
  induction xs as [|x xs IH]; intros h Hp Ht Hxs; cbv zeta.
  - repeat split; apply Hp.
  - destruct (volumeTicks_cons cfg dev x xs h) as [-> ->].
    destruct (Hxs x (or_introl eq_refl)) as (Hc & Hl & Hw).
    destruct (speech_wait_tick cfg dev t0 x h Hp Ht Hc Hl Hw)
      as (He & Hp' & Hc' & Hs').
    destruct (IH (exec (volumeTick cfg dev x) h) Hp' Ht) as (He2 & Hp2 & Hc2 & Hs2).
    { intros y Hy. rewrite Hc'. apply Hxs. now right. }
    rewrite He, He2, Hc2, Hs2, Hc', Hs'. repeat split; apply Hp2.
Qed.

(** C3 (as amended). From an eligible state with no speech pending, let a
    run of loud firings begin at time [t0]: the first one records [t0], and
    the following ones start nothing as long as their time is at most
    [speechMinDuration] ms after [t0]. If the next firing is not loud, no
    recording starts and the pending speech is forgotten. If it is loud, it
    starts the recording exactly when its time exceeds [t0] by strictly
    more than [speechMinDuration] ms (the stream being cached and the
    recorder available); the status is then recording. The delay is counted
    in milliseconds between clock readings, not in firings. *)
Theorem speech_debounce (cfg : Config) (dev : Device) (h : Hook)
    (x0 : Sample) (xs : list Sample) (xl : Sample) :
  (forall x, In x (x0 :: xs ++ [xl]) -> eligible (clock x) h) ->
  speechStart (vad h) = None ->
  clock x0 <> 0%Z ->
  (forall x, In x (x0 :: xs) -> loud cfg x) ->
  (forall x, In x xs -> (clock x - clock x0 <= speechMinDuration cfg)%Z) ->
  hasStream (io h) = true ->
  recorderOk dev = true ->
  let h1 := exec (volumeTicks cfg dev (x0 :: xs)) h in
  let h2 := exec (volumeTick cfg dev xl) h1 in
  effects (volumeTicks cfg dev (x0 :: xs)) h = [] /\
  isRecording (vad h1) = false /\
  (level xl <= vadThreshold cfg ->
     effects (volumeTick cfg dev xl) h1 = [] /\
     isRecording (vad h2) = false /\ speechStart (vad h2) = None) /\
  (loud cfg xl ->
     (In RecorderStart (effects (volumeTick cfg dev xl) h1) <->
      (speechMinDuration cfg < clock xl - clock x0)%Z) /\
     ((speechMinDuration cfg < clock xl - clock x0)%Z ->
        effects (volumeTick cfg dev xl) h1 = [RecorderStart] /\
        isRecording (vad h2) = true /\ status (view h2) = Recording) /\
     ((clock xl - clock x0 <= speechMinDuration cfg)%Z ->
        effects (volumeTick cfg dev xl) h1 = [] /\
        isRecording (vad h2) = false)).
Proof.
  intros Hel Hstart Hx0 Hloud Hwithin Hstream Hrec h1 h2.
  assert (Hcool : forall x, In x (x0 :: xs ++ [xl]) ->
                            (cooldownUntil (vad h) <= clock x)%Z).
  { intros x Hx. apply (Hel x Hx). }
  destruct (speech_first_tick cfg dev x0 h) as (He0 & Hp0 & Hc0 & Hs0);
    [apply Hel; now left | apply Hloud; now left | assumption | assumption |].
  destruct (speech_wait_ticks cfg dev (clock x0) xs
              (exec (volumeTick cfg dev x0) h) Hp0 Hx0)
    as (He1 & Hp1 & Hc1 & Hs1).
  { intros x Hx. rewrite Hc0. repeat split.
    - apply Hcool. right. apply in_or_app. now left.
    - apply Hloud. now right.
    - now apply Hwithin. }
  destruct (volumeTicks_cons cfg dev x0 xs h) as [Hexec Heff].
  fold h1 in Hexec. rewrite <- Hexec in Hp1, Hc1, Hs1.
  rewrite Heff, He0, He1. clear Hexec Heff He0 He1.
  assert (Hcl : (cooldownUntil (vad h1) <= clock xl)%Z).
  { rewrite Hc1, Hc0. apply Hcool. right. apply in_or_app. right. now left. }
  split; [reflexivity|]. split; [apply Hp1|]. split.
  - intros Hlow. now apply (speech_low_tick cfg dev (clock x0)).
  - intros Hl.
    assert (Hfire : (speechMinDuration cfg < clock xl - clock x0)%Z ->
              effects (volumeTick cfg dev xl) h1 = [RecorderStart] /\
              isRecording (vad h2) = true /\ status (view h2) = Recording).
    { intros Hlong. apply (speech_fire_tick cfg dev (clock x0)); auto.
      now rewrite Hs1, Hs0. }
    assert (Hwait : (clock xl - clock x0 <= speechMinDuration cfg)%Z ->
              effects (volumeTick cfg dev xl) h1 = [] /\
              isRecording (vad h2) = false).
    { intros Hshort.
      destruct (speech_wait_tick cfg dev (clock x0) xl h1)
        as (He & Hp & _); auto.
      split; [exact He | apply Hp]. }
    split; [|split; assumption].
    split.
    + intros Hin.
      destruct (Z_lt_le_dec (speechMinDuration cfg) (clock xl - clock x0))
        as [Hlong|Hshort]; [exact Hlong|].
      destruct (Hwait Hshort) as [He _]. rewrite He in Hin. destruct Hin.
    + intros Hlong. destruct (Hfire Hlong) as [He _]. rewrite He. now left.
Qed.

Lemma speech_debounce_witness :
  let xs := samplesEvery 50 (9 # 10) 1050 3 in
  let h1 := exec (volumeTicks DEFAULT_CONFIG goodDevice
                    (mkSample (9 # 10) 1000 1000 :: xs)) listeningHook in
  effects (volumeTicks DEFAULT_CONFIG goodDevice
             (mkSample (9 # 10) 1000 1000 :: xs)) listeningHook = [] /\
  effects (volumeTick DEFAULT_CONFIG goodDevice (mkSample (9 # 10) 1200 1200)) h1
    = [RecorderStart].
Proof.
  destruct (speech_debounce DEFAULT_CONFIG goodDevice listeningHook
              (mkSample (9 # 10) 1000 1000)
              (samplesEvery 50 (9 # 10) 1050 3)
              (mkSample (9 # 10) 1200 1200))
    as (Hquiet & _ & _ & Hloud).
  - intros x Hx. cbn in Hx.
    repeat (destruct Hx as [<-|Hx]; [unfold eligible; cbn; repeat split; (lia || discriminate)|]).
    destruct Hx.
  - reflexivity.
  - cbn. lia.
  - intros x Hx. cbn in Hx.
    repeat (destruct Hx as [<-|Hx]; [unfold loud; cbn; reflexivity|]).
    destruct Hx.
  - intros x Hx. cbn in Hx.
    repeat (destruct Hx as [<-|Hx]; [cbn; lia|]).
    destruct Hx.
  - reflexivity.
  - reflexivity.
  - split; [exact Hquiet|].
    destruct Hloud as (_ & Hfire & _); [unfold loud; cbn; reflexivity|].
    apply Hfire. cbn. lia.
Defined.

(** C3 as stated fails on both readings of its delay. Counted in firings:
    [speechMinDuration - 1 = 149] loud firings followed by a low one do
    start a recording (at the fifth firing). Counted in milliseconds: a
    level that stays above the threshold for [speechMinDuration = 150] ms,
    firings at 1000, 1050, 1100 and 1150, starts none. *)
Lemma speech_debounce_boundary :
  let run n := volumeTicks DEFAULT_CONFIG goodDevice
                 (samplesEvery 50 (9 # 10) 1000 n
                  ++ [mkSample 0 (1000 + 50 * Z.of_nat n) (1000 + 50 * Z.of_nat n)]) in
  (speechMinDuration DEFAULT_CONFIG = 150)%Z /\
  startsIn (effects (run 149%nat) listeningHook) = 1%nat /\
  startsIn (effects (volumeTicks DEFAULT_CONFIG goodDevice
                       (samplesEvery 50 (9 # 10) 1000 5)) listeningHook) = 1%nat /\
  startsIn (effects (volumeTicks DEFAULT_CONFIG goodDevice
                       (samplesEvery 50 (9 # 10) 1000 4)) listeningHook) = 0%nat /\
  isRecording (vad (exec (volumeTicks DEFAULT_CONFIG goodDevice
                       (samplesEvery 50 (9 # 10) 1000 4)) listeningHook)) = false /\
  startsIn (effects (run 4%nat) listeningHook) = 0%nat.
Proof. vm_compute. repeat split. Qed.

(** The hypothesis that no speech is pending matters: [speechStartRef] is
    reset by a firing that is not loud and by [setMode], not when a
    recording starts. After a turn of the detector it still holds the time
    of that turn, and the first loud firing past the cool-down starts the
    recorder with no delay. *)
Example stale_speech_mark :
  let turn := handsFreeTurn DEFAULT_CONFIG goodDevice
                (samplesEvery 50 (9 # 10) 1000 5) []
                (samplesEvery 50 0 2000 32) [] in
  let reply := Response None true (Some "Variance measures spread.")
                 (Some false) in
  let h := exec (onMessage 5000 reply) (exec turn listeningHook) in
  speechStart (vad h) = Some 1000%Z /\
  status (view h) = Idle /\
  cooldownUntil (vad h) = 7000%Z /\
  effects (volumeTick DEFAULT_CONFIG goodDevice (mkSample (9 # 10) 9000 9000)) h
    = [RecorderStart].
Proof. vm_compute. repeat split. Qed.

(* ------------------------------------------------------------------ *)
(** *** Silence during a recording *)












(* ================================================================== *)
(** ** Level meter *)
(* ================================================================== *)

(** C9. Under round-to-nearest (monotone, exact on the integers up to
    [2^53]) the level computed from a non-empty byte buffer lies in [0,1];
    when no analyser is attached the level is [0]. [getVolume] is a total
    function: it has a value on every input. *)
Theorem getVolume_unit_interval (rnd : R -> R)
    (analyser : option (list Byte.byte)) :
  (forall x y : R, (x <= y)%R -> (rnd x <= rnd y)%R) ->
  (forall k : nat, (Z.of_nat k <= 2 ^ 53)%Z -> rnd (INR k) = INR k) ->
  match analyser with
  | None => getVolume rnd None = 0%R
  | Some dataArray =>
      dataArray <> [] ->
      (Z.of_nat (List.length dataArray) <= 2 ^ 53)%Z ->
      (0 <= getVolume rnd (Some dataArray) <= 1)%R
  end.
Proof.
  intros Hmono Hexact. destruct analyser as [dataArray|].
  - now apply getVolume_range.
  - reflexivity.
Qed.

Lemma getVolume_unit_interval_witness :
  (0 <= getVolume (fun x => x)
          (Some [Byte.x00; Byte.xff; Byte.x80; Byte.x10]) <= 1)%R /\
  getVolume (fun x => x) None = 0%R.
Proof.
  split.
  - apply (getVolume_unit_interval (fun x => x)
             (Some [Byte.x00; Byte.xff; Byte.x80; Byte.x10])).
    + intros x y H. exact H.
    + intros k _. reflexivity.
    + discriminate.
    + cbn. lia.
  - apply (getVolume_unit_interval (fun x => x) None).
    + intros x y H. exact H.
    + intros k _. reflexivity.
Defined.

(* ================================================================== *)
(** ** Checking handlers piece by piece *)
(* ================================================================== *)

(** Open a hook into named fields. *)
Ltac open_named h :=
  destruct h as [[st_ md_ cs_ ic_ tr_ rs_ er_ vo_ ch_]
                 [sp_ ss_ sst_ ve_ ir_ cu_]
                 [cr_ wo_ rc_ hs_ ck_]];
  cbn [view vad io status mode conversationState isConnected transcription
       response error volume chatHistory isSpeaking silenceStart speechStart
       vadEnabled isRecording cooldownUntil currentResponse wsOpen recorder
       hasStream chunks] in *;
  subst.

Section Respects.

Context (R : Rel) `{LogOrder R}.

Lemma Respects_ret {A} (a : A) : Respects R (ret a).
Proof. intros h. apply log_refl. Qed.

Lemma Respects_read {A} (f : Hook -> A) : Respects R (read f).
Proof. intros h. apply log_refl. Qed.

Lemma Respects_bind {A B} (c : Act A) (k : A -> Act B) :
  Respects R c -> (forall a, Respects R (k a)) -> Respects R (bind c k).
Proof.
  intros Hc Hk h. rewrite exec_bind, effects_bind.
  eapply log_trans; [apply Hc | apply Hk].
Qed.

Lemma Respects_when (b : bool) (c : Act unit) :
  Respects R c -> Respects R (when b c).
Proof. intros Hc. destruct b; [exact Hc | apply Respects_ret]. Qed.

Lemma Respects_modify (g : Hook -> Hook) :
  (forall h, R h (g h) []) -> Respects R (modify g).
Proof. intros Hg h. apply Hg. Qed.

Lemma Respects_emit (e : Effect) :
  (forall h, R h h [e]) -> Respects R (emit e).
Proof. intros He h. apply He. Qed.

End Respects.

#[local] Instance Keeps_order {X} (f : Hook -> X) : LogOrder (Keeps f).
Proof. split; unfold Keeps; intros; congruence. Qed.

#[local] Instance Silent_order : LogOrder Silent.
Proof.
  split; unfold Silent; intros; [reflexivity|].
  rewrite existsb_app. now rewrite H, H0.
Qed.

#[local] Instance Never_order (kind : Effect -> bool) : LogOrder (Never kind).
Proof.
  split; unfold Never; intros; [reflexivity|].
  rewrite existsb_app. now rewrite H, H0.
Qed.

#[local] Instance Extends_order : LogOrder Extends.
Proof.
  split; unfold Extends.
  - intros h. exists []. now rewrite app_nil_r.
  - intros h1 h2 h3 _ _ [a Ha] [b Hb]. exists (a ++ b).
    now rewrite Hb, Ha, app_assoc.
Qed.

Lemma startsIn_app (l1 l2 : list Effect) :
  startsIn (l1 ++ l2) = (startsIn l1 + startsIn l2)%nat.
Proof. unfold startsIn. now rewrite filter_app, length_app. Qed.

Lemma stopsIn_app (l1 l2 : list Effect) :
  stopsIn (l1 ++ l2) = (stopsIn l1 + stopsIn l2)%nat.
Proof. unfold stopsIn. now rewrite filter_app, length_app. Qed.

#[local] Instance Safe_order : LogOrder Safe.
Proof.
  split; unfold Safe.
  - intros h Hok. split; [assumption|]. split; [reflexivity|].
    intros Hs. split; [assumption | reflexivity].
  - intros h1 h2 h3 l1 l2 H12 H23 Hok.
    destruct (H12 Hok) as (Hok2 & Hb1 & Hc1).
    destruct (H23 Hok2) as (Hok3 & Hb2 & Hc2).
    split; [exact Hok3|]. split.
    + rewrite startsIn_app, stopsIn_app. lia.
    + intros Hs. destruct (Hc1 Hs) as [Hs2 Hg1].
      destruct (Hc2 Hs2) as [Hs3 Hg2].
      split; [exact Hs3|]. rewrite existsb_app. now rewrite Hg1, Hg2.
Qed.

(** The handlers, unfolded down to reads, writes and calls. *)
Ltac unfold_handlers :=
  unfold handle, onOpen, onClose, onSocketError, onMessage, onTranscription,
    onResponse, onErrorMessage, onAudio, onAudioEnded, onAudioError,
    onDataAvailable, onRecorderStop, initHandsFree, toggleRecording,
    startRecording, stopRecording, setMode, sendText, clear, volumeTick,
    speechBranch, silenceBranch, stopRecordingInternal,
    startRecordingInternal, setupAudio, stopVolumeMonitoring, sendIfOpen,
    resetAccumulator, appendChat, setStatus, setConversationState,
    setTranscription, setResponse, setError, setVolume, skip;
  cbv zeta.

(** One step of the decomposition of a handler. *)
Ltac respects_step :=
  lazymatch goal with
  | |- Respects ?R (bind ?c ?k) => apply (Respects_bind R c k); [|intros ?]
  | |- Respects ?R (ret ?a) => apply (Respects_ret R a)
  | |- Respects ?R (read ?f) => apply (Respects_read R f)
  | |- Respects ?R (when ?b ?c) => apply (Respects_when R b c)
  | |- Respects _ (if ?b then _ else _) => destruct b
  | |- Respects _ (match ?x with _ => _ end) => destruct x
  end.

(** Writes are discharged by [tac], calls by [calls]. *)
Ltac respects_core tac calls :=
  repeat first
    [ respects_step
    | lazymatch goal with
      | |- Respects ?R (modify ?g) =>
          apply (Respects_modify R g); intros ?h; tac
      | |- Respects ?R (emit ?e) =>
          apply (Respects_emit R e); intros ?h; tac
      end
    | calls ].

Ltac respects_with tac := unfold_handlers; respects_core tac fail.

Ltac keeps_leaf :=
  idtac; match goal with
  | h : Hook |- _ => unfold Keeps; destruct h as [[] [] []]; reflexivity
  end.

Ltac silent_leaf := idtac; reflexivity.

Lemma volumeTicks_respects (R : Rel) `{LogOrder R} (cfg : Config)
    (dev : Device) :
  (forall x, Respects R (volumeTick cfg dev x)) ->
  forall xs, Respects R (volumeTicks cfg dev xs).
Proof.
  intros Htick. induction xs as [|x xs IH]; cbn [volumeTicks].
  - apply (Respects_ret R tt).
  - apply (Respects_bind R); [apply Htick | intros _; exact IH].
Qed.

(** A firing that does not call for a recording is the speech branch
    followed by the silence branch. *)
Lemma volumeTick_not_requested (cfg : Config) (dev : Device) (x : Sample)
    (h : Hook) :
  startRequested cfg x h = false ->
  let h2 := exec (speechBranch cfg x) (withVolume (level x) h) in
  exec (volumeTick cfg dev x) h = exec (silenceBranch cfg x) h2 /\
  effects (volumeTick cfg dev x) h = effects (silenceBranch cfg x) h2.
Proof.
  unfold startRequested. intros Hreq. unfold volumeTick.
  rewrite !exec_bind, !effects_bind, Hreq, speechBranch_silent.
  cbn [when]. split; [reflexivity|]. now rewrite app_nil_r.
Qed.


Ltac extends_leaf :=
  idtac; match goal with
  | h : Hook |- _ =>
      unfold Extends; destruct h as [[] [] []]; cbn;
      first [ exists []; now rewrite app_nil_r | eexists; reflexivity ]
  end.

Ltac safe_leaf :=
  idtac; match goal with
  | h : Hook |- _ =>
      unfold Safe; open_named h; intros [H1 H2 H3 H4 H5];
      cbn in H1, H2, H3, H4, H5;
      split; [constructor; cbn; intros; auto; try discriminate|];
      split; [reflexivity | intros; split; [assumption | reflexivity]]
  end.

(** Every definition of the hook unfolded, for handlers checked whole. *)
Ltac unfold_all :=
  cbv beta iota zeta delta
    [exec effects result startRequested bind ret modify read emit skip when
     handle onOpen onClose onSocketError onErrorMessage onAudio onAudioEnded
     onAudioError onDataAvailable onRecorderStop initHandsFree
     toggleRecording startRecording stopRecording setMode clear
     stopVolumeMonitoring sendIfOpen resetAccumulator appendChat
     setStatus setResponse setError setVolume setTranscription
     setConversationState isPushToTalk
     volumeTick speechBranch silenceBranch stopRecordingInternal
     startRecordingInternal setupAudio canListen notBusy truthyTime timeOf
     onView onVad onIo withStatus withResponse withError withVolume
     withMode withIsConnected withTranscription withConversationState
     withChatHistory withVadEnabled withCooldownUntil withCurrentResponse
     withWsOpen withIsSpeaking withSilenceStart withSpeechStart
     withIsRecording withRecorder withHasStream withChunks
     view vad io status mode isSpeaking silenceStart speechStart vadEnabled
     isRecording cooldownUntil recorder hasStream chunks wsOpen
     currentResponse chatHistory conversationState
     running startsIn stopsIn isRecorderStart isRecorderStop isGetUserMedia
     isSend existsb filter List.length orb
     fst snd andb negb];
  cbn [app].

Ltac case_test :=
  match goal with
  | |- context [match ?m with PushToTalk => _ | HandsFree => _ end] =>
      is_var m; destruct m
  | |- _ => tick_case
  end.

Ltac hook_ok :=
  constructor;
  cbn [view vad io status isSpeaking vadEnabled isRecording recorder hasStream];
  intros; try discriminate; try congruence; auto.

Ltac use_premises :=
  repeat match goal with
         | H : ?a = ?a -> _ |- _ => specialize (H eq_refl)
         end.

(** A handler checked whole against [Safe]. *)
Ltac safe_finish :=
  unfold_all; repeat (case_test; unfold_all);
  use_premises;
  (split; [hook_ok|]);
  (split;
   [ try reflexivity; try discriminate; try congruence
   | intros; split; congruence ]).

Ltac safe_whole :=
  intros h; unfold Safe; open_named h; intros [H1 H2 H3 H4 H5];
  cbn in H1, H2, H3, H4, H5;
  safe_finish.

Lemma Safe_setupAudio (dev : Device) : Respects Safe (setupAudio dev).
Proof. safe_whole. Qed.

Lemma Safe_startRecordingInternal (dev : Device) :
  Respects Safe (startRecordingInternal dev).
Proof. safe_whole. Qed.

Lemma Safe_stopRecordingInternal : Respects Safe stopRecordingInternal.
Proof. safe_whole. Qed.

Lemma Safe_speechBranch (cfg : Config) (x : Sample) :
  Respects Safe (speechBranch cfg x).
Proof. safe_whole. Qed.

Lemma Safe_setMode (dev : Device) (newMode : VoiceMode) :
  Respects Safe (setMode dev newMode).
Proof. destruct newMode; safe_whole. Qed.

Lemma Safe_initHandsFree (dev : Device) : Respects Safe (initHandsFree dev).
Proof. safe_whole. Qed.

(** [onstop] is safe once the recorder has been stopped. *)
Lemma Safe_onRecorderStop (h : Hook) :
  recorder (io h) = Some RecInactive ->
  Safe h (exec onRecorderStop h) (effects onRecorderStop h).
Proof.
  unfold Safe. open_named h. intros Hrec [H1 H2 H3 H4 H5]. subst rc_.
  cbn in H1, H2, H3, H4, H5. safe_finish.
Qed.


Ltac request_cases h :=
  open_named h; unfold_tick; repeat (tick_case; unfold_tick).

(* ================================================================== *)
(** ** Further properties of the detector *)
(* ================================================================== *)

Lemma tick_quiet_no_request (cfg : Config) (x : Sample) (h : Hook) :
  level x <= vadThreshold cfg -> startRequested cfg x h = false.
Proof.
  intros Hq. apply Qltb_ge in Hq. request_cases h; congruence.
Qed.

Lemma tick_busy_no_request (cfg : Config) (x : Sample) (h : Hook) :
  notBusy (status (view h)) = false -> startRequested cfg x h = false.
Proof.
  intros Hb. revert Hb. request_cases h; cbn; congruence.
Qed.

(** A firing that does not call for a recording leaves [isRecordingRef] and
    the status alone, starts no recorder and does not ask for the
    microphone. *)
Lemma tick_not_requested_keeps (cfg : Config) (dev : Device) (x : Sample)
    (h : Hook) :
  startRequested cfg x h = false ->
  isRecording (vad (exec (volumeTick cfg dev x) h)) = isRecording (vad h) /\
  status (view (exec (volumeTick cfg dev x) h)) = status (view h) /\
  existsb isRecorderStart (effects (volumeTick cfg dev x) h) = false /\
  existsb isGetUserMedia (effects (volumeTick cfg dev x) h) = false.
Proof.
  intros Hreq.
  destruct (volumeTick_not_requested cfg dev x h Hreq) as [-> ->].
  assert (Hr : forall c : Act unit,
             c = silenceBranch cfg x ->
             Respects (Keeps (fun h => isRecording (vad h))) c /\
             Respects (Keeps (fun h => status (view h))) c /\
             Respects (Never isRecorderStart) c /\
             Respects (Never isGetUserMedia) c).
  { intros c ->. repeat split;
      first [ respects_with keeps_leaf | respects_with silent_leaf ]. }
  destruct (Hr _ eq_refl) as (H1 & H2 & H3 & H4).
  assert (Hp1 : Respects (Keeps (fun h => isRecording (vad h)))
                  (speechBranch cfg x)) by respects_with keeps_leaf.
  assert (Hp2 : Respects (Keeps (fun h => status (view h)))
                  (speechBranch cfg x)) by respects_with keeps_leaf.
  rewrite (H1 _), (H2 _), (Hp1 _), (Hp2 _).
  repeat split; [destruct h as [[] [] []]; reflexivity ..| apply H3 | apply H4].
Qed.

Lemma in_existsb_false (kind : Effect -> bool) (e : Effect) (l : list Effect) :
  kind e = true -> existsb kind l = false -> ~ In e l.
Proof.
  intros He Hl Hin. assert (existsb kind l = true)
    by (apply existsb_exists; eauto). congruence.
Qed.

(** X1. Samples that do not exceed the threshold never start a recording,
    in whatever state the run begins and however long it lasts; they do not
    ask for the microphone either, and they leave [isRecordingRef] and the
    status as they were. *)
Theorem quiet_run_starts_nothing (cfg : Config) (dev : Device)
    (xs : list Sample) :
  forall h : Hook,
    (forall x, In x xs -> level x <= vadThreshold cfg) ->
    ~ In RecorderStart (effects (volumeTicks cfg dev xs) h) /\
    ~ In GetUserMedia (effects (volumeTicks cfg dev xs) h) /\
    isRecording (vad (exec (volumeTicks cfg dev xs) h)) = isRecording (vad h) /\
    status (view (exec (volumeTicks cfg dev xs) h)) = status (view h).
Proof.
  induction xs as [|x xs IH]; intros h Hq.
  - repeat split; auto.
  - destruct (volumeTicks_cons cfg dev x xs h) as [-> ->].
    assert (Hreq : startRequested cfg x h = false)
      by (apply tick_quiet_no_request, Hq; now left).
    destruct (tick_not_requested_keeps cfg dev x h Hreq) as (Hr & Hst & Hs & Hg).
    destruct (IH (exec (volumeTick cfg dev x) h)) as (Hs' & Hg' & Hr' & Hst').
    { intros y Hy. apply Hq. now right. }
    rewrite Hr', Hst', Hr, Hst. repeat split.
    + intros Hin. apply in_app_or in Hin as [Hin|Hin]; [|now apply Hs'].
      revert Hin. now apply (in_existsb_false isRecorderStart).
    + intros Hin. apply in_app_or in Hin as [Hin|Hin]; [|now apply Hg'].
      revert Hin. now apply (in_existsb_false isGetUserMedia).
Qed.

Lemma quiet_run_starts_nothing_witness :
  ~ In RecorderStart
      (effects (volumeTicks DEFAULT_CONFIG goodDevice
                  (samplesEvery 50 (8 # 100) 1000 40)) listeningHook).
Proof.
  apply (quiet_run_starts_nothing DEFAULT_CONFIG goodDevice
           (samplesEvery 50 (8 # 100) 1000 40) listeningHook).
  intros x Hx. unfold samplesEvery in Hx. apply in_map_iff in Hx.
  destruct Hx as (i & <- & _). cbn. apply Qle_refl.
Defined.

(** X2. While the status is processing or speaking, no run of firings
    starts a recording, whatever the levels and the clock, and the status
    is not changed by the detector. *)
Theorem busy_status_blocks_detector (cfg : Config) (dev : Device)
    (xs : list Sample) :
  forall h : Hook,
    status (view h) = Processing \/ status (view h) = Speaking ->
    ~ In RecorderStart (effects (volumeTicks cfg dev xs) h) /\
    status (view (exec (volumeTicks cfg dev xs) h)) = status (view h).
Proof.
  induction xs as [|x xs IH]; intros h Hb.
  - split; [intros [] | reflexivity].
  - destruct (volumeTicks_cons cfg dev x xs h) as [-> ->].
    assert (Hreq : startRequested cfg x h = false).
    { apply tick_busy_no_request. destruct Hb as [-> | ->]; reflexivity. }
    destruct (tick_not_requested_keeps cfg dev x h Hreq) as (_ & Hst & Hs & _).
    destruct (IH (exec (volumeTick cfg dev x) h)) as (Hs' & Hst').
    { now rewrite Hst. }
    split.
    + intros Hin. apply in_app_or in Hin as [Hin|Hin]; [|now apply Hs'].
      revert Hin. now apply (in_existsb_false isRecorderStart).
    + now rewrite Hst', Hst.
Qed.

Lemma busy_status_blocks_detector_witness :
  ~ In RecorderStart
      (effects (volumeTicks DEFAULT_CONFIG goodDevice
                  (samplesEvery 50 (9 # 10) 1000 40))
               (withStatus Speaking listeningHook)).
Proof.
  apply (busy_status_blocks_detector DEFAULT_CONFIG goodDevice
           (samplesEvery 50 (9 # 10) 1000 40)
           (withStatus Speaking listeningHook)).
  right. reflexivity.
Defined.

(** X3. After the assistant's audio has finished playing at time [t], and
    after a terminal response that announces no audio received at time [t],
    no firing whose clock reads less than [t + 2000] starts a recording,
    however loud the samples. *)
Theorem reply_opens_cooldown {cm : CaseMapping} (cfg : Config) (dev : Device)
    (t : Z) (h : Hook)
    (xs : list Sample) (text full_text : option string)
    (has_audio : option bool) :
  (forall x, In x xs -> (clock x < t + 2000)%Z) ->
  has_audio <> Some true ->
  ~ In RecorderStart
      (effects (volumeTicks cfg dev xs) (exec (onAudioEnded t) h)) /\
  ~ In RecorderStart
      (effects (volumeTicks cfg dev xs)
         (exec (onMessage t (Response text true full_text has_audio)) h)).
Proof.
  intros Hxs Hna. split; apply cooldown_blocks_run; intros x Hx.
  - replace (cooldownUntil (vad (exec (onAudioEnded t) h))) with (t + 2000)%Z
      by (open_named h; reflexivity).
    now apply Hxs.
  - replace (cooldownUntil
               (vad (exec (onMessage t (Response text true full_text has_audio)) h)))
      with (t + 2000)%Z.
    + now apply Hxs.
    + open_named h.
      destruct full_text as [[|c ft]|], cr_ as [|c' cur],
        has_audio as [[|]|]; run; congruence.
Qed.

Lemma reply_opens_cooldown_witness :
  ~ In RecorderStart
      (effects (volumeTicks DEFAULT_CONFIG goodDevice
                  (samplesEvery 50 (9 # 10) 5000 39))
               (exec (onAudioEnded 5000) (withStatus Speaking listeningHook))).
Proof.
  apply (reply_opens_cooldown DEFAULT_CONFIG goodDevice 5000
           (withStatus Speaking listeningHook)
           (samplesEvery 50 (9 # 10) 5000 39) None None None).
  - intros x Hx. unfold samplesEvery in Hx. apply in_map_iff in Hx.
    destruct Hx as (i & <- & Hi). apply in_seq in Hi.
    change (5000 + 50 * Z.of_nat i < 5000 + 2000)%Z. lia.
  - discriminate.
Defined.

(** X4. The detector never writes on the socket and never touches the chat
    history, the conversation state, the transcription, the mode, the
    response accumulator, the end of the cool-down or its own enabling
    flag, over any run of firings from any state. *)
Theorem detector_footprint (cfg : Config) (dev : Device) (xs : list Sample)
    (h : Hook) :
  let h' := exec (volumeTicks cfg dev xs) h in
  chatHistory (view h') = chatHistory (view h) /\
  conversationState (view h') = conversationState (view h) /\
  transcription (view h') = transcription (view h) /\
  mode (view h') = mode (view h) /\
  currentResponse (io h') = currentResponse (io h) /\
  wsOpen (io h') = wsOpen (io h) /\
  cooldownUntil (vad h') = cooldownUntil (vad h) /\
  vadEnabled (vad h') = vadEnabled (vad h) /\
  existsb isSend (effects (volumeTicks cfg dev xs) h) = false.
Proof.
  cbv zeta. repeat split.
  - apply (volumeTicks_respects (Keeps (fun h => chatHistory (view h))));
      intros x; respects_with keeps_leaf.
  - apply (volumeTicks_respects (Keeps (fun h => conversationState (view h))));
      intros x; respects_with keeps_leaf.
  - apply (volumeTicks_respects (Keeps (fun h => transcription (view h))));
      intros x; respects_with keeps_leaf.
  - apply (volumeTicks_respects (Keeps (fun h => mode (view h))));
      intros x; respects_with keeps_leaf.
  - apply (volumeTicks_respects (Keeps (fun h => currentResponse (io h))));
      intros x; respects_with keeps_leaf.
  - apply (volumeTicks_respects (Keeps (fun h => wsOpen (io h))));
      intros x; respects_with keeps_leaf.
  - apply (volumeTicks_respects (Keeps (fun h => cooldownUntil (vad h))));
      intros x; respects_with keeps_leaf.
  - apply (volumeTicks_respects (Keeps (fun h => vadEnabled (vad h))));
      intros x; respects_with keeps_leaf.
  - apply (volumeTicks_respects Silent); intros x; respects_with silent_leaf.
Qed.

(* ================================================================== *)
(** ** Invariants of the event system *)
(* ================================================================== *)

Ltac unfold_callers :=
  unfold handle, onOpen, onClose, onSocketError, onMessage, onTranscription,
    onResponse, onErrorMessage, onAudio, onAudioEnded, onAudioError,
    onDataAvailable, toggleRecording, startRecording, stopRecording,
    sendText, clear, volumeTick, silenceBranch, sendIfOpen,
    resetAccumulator, appendChat, setStatus, setConversationState,
    setTranscription, setResponse, setError, setVolume, skip;
  cbv zeta.

Ltac safe_calls :=
  first [ apply Safe_setupAudio | apply Safe_startRecordingInternal
        | apply Safe_stopRecordingInternal | apply Safe_speechBranch
        | apply Safe_setMode | apply Safe_initHandsFree ].

Lemma handle_safe {cm : CaseMapping} (cfg : Config) (dev : Device)
    (ev : Event) (w : World) :
  fires ev w = true ->
  Safe (hook w) (exec (handle cfg dev ev) (hook w))
       (effects (handle cfg dev ev) (hook w)).
Proof.
  intros Hf.
  assert (Hstop : ev = EvRecorderStop \/ Respects Safe (handle cfg dev ev)).
  { destruct ev as [ | | |now m| | | | | | | | | | | | |]; try destruct m;
      try (left; reflexivity); right;
      unfold_callers; respects_core safe_leaf safe_calls. }
  destruct Hstop as [-> | Hr]; [|apply Hr].
  apply Safe_onRecorderStop. cbn in Hf.
  destruct (recorder (io (hook w))) as [[|]|]; (reflexivity || discriminate).
Qed.

Lemma handle_keeps_enabled {cm : CaseMapping} (cfg : Config) (dev : Device)
    (ev : Event) :
  match ev with EvSetMode _ | EvInitHandsFree => False | _ => True end ->
  Respects (Keeps (fun h => vadEnabled (vad h))) (handle cfg dev ev).
Proof.
  intros Hev. destruct ev as [ | | |now m| | | | | | | | | | | | |];
    try destruct m; try contradiction; respects_with keeps_leaf.
Qed.

Lemma handle_keeps_conversation {cm : CaseMapping} (cfg : Config)
    (dev : Device) (ev : Event) :
  isTranscription ev = false ->
  Respects (Keeps (fun h => conversationState (view h))) (handle cfg dev ev).
Proof.
  intros Hev. destruct ev as [ | | |now m| | | | | | | | | | | | |];
    try destruct m; try discriminate; respects_with keeps_leaf.
Qed.

Lemma handle_extends {cm : CaseMapping} (cfg : Config) (dev : Device)
    (ev : Event) :
  isClear ev = false -> Respects Extends (handle cfg dev ev).
Proof.
  intros Hev. destruct ev as [ | | |now m| | | | | | | | | | | | |];
    try destruct m; try discriminate; respects_with extends_leaf.
Qed.

Lemma runWorld_cons {cm : CaseMapping} (cfg : Config) (de : Device * Event)
    (rest : list (Device * Event)) (w : World) :
  fst (runWorld cfg (de :: rest) w)
    = fst (runWorld cfg rest (fst (stepWorld cfg de w))) /\
  snd (runWorld cfg (de :: rest) w)
    = snd (stepWorld cfg de w)
      ++ snd (runWorld cfg rest (fst (stepWorld cfg de w))).
Proof.
  cbn [runWorld]. destruct (stepWorld cfg de w) as [w1 l1]. cbn [fst snd].
  destruct (runWorld cfg rest w1) as [w2 l2]. split; reflexivity.
Qed.

Lemma stepWorld_fired {cm : CaseMapping} (cfg : Config) (dev : Device)
    (ev : Event) (w : World) :
  fires ev w = true ->
  hook (fst (stepWorld cfg (dev, ev) w)) = exec (handle cfg dev ev) (hook w) /\
  snd (stepWorld cfg (dev, ev) w) = effects (handle cfg dev ev) (hook w) /\
  monitoring (fst (stepWorld cfg (dev, ev) w))
    = monitoringAfter ev (monitoring w) (exec (handle cfg dev ev) (hook w)).
Proof.
  intros Hf. unfold stepWorld, exec, effects. rewrite Hf.
  destruct (handle cfg dev ev (hook w)) as [[u h'] l]. repeat split.
Qed.

Lemma stepWorld_idle {cm : CaseMapping} (cfg : Config) (dev : Device)
    (ev : Event) (w : World) :
  fires ev w = false -> stepWorld cfg (dev, ev) w = (w, []).
Proof. intros Hf. unfold stepWorld. now rewrite Hf. Qed.

(** The timer follows the enabling flag. *)
Lemma step_monitoring {cm : CaseMapping} (cfg : Config) (dev : Device)
    (ev : Event) (w : World) :
  fires ev w = true ->
  monitoring w = vadEnabled (vad (hook w)) ->
  monitoringAfter ev (monitoring w) (exec (handle cfg dev ev) (hook w))
    = vadEnabled (vad (exec (handle cfg dev ev) (hook w))).
Proof.
  intros Hf Hm.
  assert (Hcase : (exists m, ev = EvSetMode m) \/ ev = EvInitHandsFree \/
                  match ev with
                  | EvSetMode _ | EvInitHandsFree => False
                  | _ => True
                  end).
  { destruct ev; eauto; right; right; exact I. }
  destruct Hcase as [[m ->] | [-> | Hother]].
  - destruct w as [h mon]. cbn [hook monitoring] in *. subst mon.
    open_named h. destruct m; cbn [monitoringAfter]; unfold_all;
      repeat (case_test; unfold_all); reflexivity.
  - destruct w as [h mon]. cbn [hook monitoring] in *. subst mon.
    open_named h. cbn [monitoringAfter]. unfold_all;
      repeat (case_test; unfold_all); reflexivity.
  - rewrite (handle_keeps_enabled cfg dev ev Hother (hook w)).
    destruct ev; try contradiction; exact Hm.
Qed.

Lemma stepWorld_consistent {cm : CaseMapping} (cfg : Config)
    (de : Device * Event) (w : World) :
  Consistent w ->
  Consistent (fst (stepWorld cfg de w)) /\
  (startsIn (snd (stepWorld cfg de w)) + running (hook w)
   = stopsIn (snd (stepWorld cfg de w))
     + running (hook (fst (stepWorld cfg de w))))%nat /\
  (hasStream (io (hook w)) = true ->
   hasStream (io (hook (fst (stepWorld cfg de w)))) = true /\
   existsb isGetUserMedia (snd (stepWorld cfg de w)) = false).
Proof.
  intros [Hok Hmon]. destruct de as [dev ev].
  destruct (fires ev w) eqn:Hf.
  - destruct (stepWorld_fired cfg dev ev w Hf) as (Hh & Hl & Hm).
    destruct (handle_safe cfg dev ev w Hf Hok) as (Hok' & Hbal & Hcache).
    rewrite Hl. unfold Consistent. rewrite Hh, Hm.
    split; [split; [exact Hok' | now apply step_monitoring]|].
    split; [exact Hbal | exact Hcache].
  - rewrite (stepWorld_idle cfg dev ev w Hf). cbn [fst snd].
    split; [split; assumption|]. split; [reflexivity|].
    intros Hs. split; [exact Hs | reflexivity].
Qed.

Lemma runWorld_consistent {cm : CaseMapping} (cfg : Config) (evs : list
    (Device * Event)) :
  forall w : World,
    Consistent w ->
    Consistent (fst (runWorld cfg evs w)) /\
    (startsIn (snd (runWorld cfg evs w)) + running (hook w)
     = stopsIn (snd (runWorld cfg evs w))
       + running (hook (fst (runWorld cfg evs w))))%nat /\
    (hasStream (io (hook w)) = true ->
     hasStream (io (hook (fst (runWorld cfg evs w)))) = true /\
     existsb isGetUserMedia (snd (runWorld cfg evs w)) = false).
Proof.
  induction evs as [|de evs IH]; intros w Hc.
  - cbn. split; [exact Hc|]. split; [reflexivity|].
    intros Hs. split; [exact Hs | reflexivity].
  - destruct (runWorld_cons cfg de evs w) as [-> ->].
    destruct (stepWorld_consistent cfg de w Hc) as (Hc1 & Hb1 & Hs1).
    destruct (IH _ Hc1) as (Hc2 & Hb2 & Hs2).
    split; [exact Hc2|]. split.
    + rewrite startsIn_app, stopsIn_app. lia.
    + intros Hs. destruct (Hs1 Hs) as [Hs' Hg1].
      destruct (Hs2 Hs') as [Hs'' Hg2].
      split; [exact Hs''|]. rewrite existsb_app. now rewrite Hg1, Hg2.
Qed.

Lemma initialWorld_consistent : Consistent initialWorld.
Proof. split; [constructor; cbn; intros; discriminate | reflexivity]. Qed.

Lemma reachable_consistent_aux {cm : CaseMapping} (cfg : Config)
    (evs : list (Device * Event)) :
  Consistent (fst (runWorld cfg evs initialWorld)).
Proof. apply runWorld_consistent, initialWorld_consistent. Qed.

(** X5. In every state reached from the initial one by any sequence of
    events, the refs agree: [isRecordingRef] set means there is a recorder,
    status recording means [isRecordingRef] is set, [isSpeakingRef] set
    means the detector is enabled, the detector enabled means the stream is
    cached, and the sampling timer runs exactly when the detector is
    enabled. Each of these is written in one synchronous block of the
    source, so none depends on when a permission prompt is answered. *)
Theorem reachable_consistent {cm : CaseMapping} (cfg : Config)
    (evs : list (Device * Event)) :
  let w := fst (runWorld cfg evs initialWorld) in
  let h := hook w in
  (isRecording (vad h) = true -> recorder (io h) <> None) /\
  (status (view h) = Recording -> isRecording (vad h) = true) /\
  (isSpeaking (vad h) = true -> vadEnabled (vad h) = true) /\
  (vadEnabled (vad h) = true -> hasStream (io h) = true) /\
  monitoring w = vadEnabled (vad h).
Proof.
  cbv zeta. destruct (reachable_consistent_aux cfg evs) as [[_ H2 H3 H4 H5] H6].
  repeat split; assumption.
Qed.

(** X7. The microphone is asked for at most until it is granted: once the
    stream is cached in a reachable state, no later event asks for it again
    and the stream stays cached. *)
Theorem stream_acquired_once {cm : CaseMapping} (cfg : Config)
    (before after : list (Device * Event)) :
  let w := fst (runWorld cfg before initialWorld) in
  hasStream (io (hook w)) = true ->
  existsb isGetUserMedia (snd (runWorld cfg after w)) = false /\
  hasStream (io (hook (fst (runWorld cfg after w)))) = true.
Proof.
  cbv zeta. intros Hs.
  destruct (runWorld_consistent cfg after _ (reachable_consistent_aux cfg before))
    as (_ & _ & Hcache).
  destruct (Hcache Hs). auto.
Qed.

Lemma stream_acquired_once_witness :
  let w := fst (runWorld DEFAULT_CONFIG [(goodDevice, EvInitHandsFree)]
                  initialWorld) in
  existsb isGetUserMedia
    (snd (runWorld DEFAULT_CONFIG
            [(goodDevice, EvSetMode PushToTalk);
             (goodDevice, EvStartRecording);
             (goodDevice, EvSetMode HandsFree)] w)) = false.
Proof.
  apply (stream_acquired_once DEFAULT_CONFIG
           [(goodDevice, EvInitHandsFree)]
           [(goodDevice, EvSetMode PushToTalk);
            (goodDevice, EvStartRecording);
            (goodDevice, EvSetMode HandsFree)]).
  reflexivity.
Defined.

(** X8. The detector never triggers a permission prompt: in every reachable
    state a firing of the sampling timer does not ask for the microphone. *)
Theorem detector_never_prompts {cm : CaseMapping} (cfg : Config) (evs : list
    (Device * Event))
    (dev : Device) (x : Sample) :
  let w := fst (runWorld cfg evs initialWorld) in
  existsb isGetUserMedia (snd (stepWorld cfg (dev, EvTick x) w)) = false.
Proof.
  cbv zeta.
  pose proof (reachable_consistent_aux cfg evs) as Hc.
  destruct (fires (EvTick x) (fst (runWorld cfg evs initialWorld))) eqn:Hf.
  - destruct (stepWorld_consistent cfg (dev, EvTick x) _ Hc) as (_ & _ & Hcache).
    apply Hcache. destruct Hc as [Hok Hmon]. apply (enabled_stream _ Hok).
    rewrite <- Hmon. exact Hf.
  - now rewrite (stepWorld_idle cfg dev (EvTick x) _ Hf).
Qed.

Lemma runWorld_respects {cm : CaseMapping} (R : Rel) `{LogOrder R}
    (cfg : Config)
    (allowed : Event -> bool) :
  (forall dev ev, allowed ev = true -> Respects R (handle cfg dev ev)) ->
  forall (evs : list (Device * Event)) (w : World),
    forallb (fun de => allowed (snd de)) evs = true ->
    R (hook w) (hook (fst (runWorld cfg evs w))) (snd (runWorld cfg evs w)).
Proof.
  intros Hall. induction evs as [|[dev ev] evs IH]; intros w Hevs.
  - cbn. apply log_refl.
  - cbn [forallb snd] in Hevs. apply andb_true_iff in Hevs as [Hev Hevs].
    destruct (runWorld_cons cfg (dev, ev) evs w) as [-> ->].
    eapply log_trans; [|apply IH, Hevs].
    destruct (fires ev w) eqn:Hf.
    + destruct (stepWorld_fired cfg dev ev w Hf) as (-> & -> & _).
      now apply Hall.
    + rewrite (stepWorld_idle cfg dev ev w Hf). apply log_refl.
Qed.

(** X9. The chat history is append-only: over any sequence of events that
    contains no [clear], the history at the start is a prefix of the history
    at the end, so no message is ever removed, reordered or edited. *)
Theorem history_append_only {cm : CaseMapping} (cfg : Config) (evs : list
    (Device * Event))
    (w : World) :
  forallb (fun de => negb (isClear (snd de))) evs = true ->
  exists added,
    chatHistory (view (hook (fst (runWorld cfg evs w))))
      = chatHistory (view (hook w)) ++ added.
Proof.
  intros Hevs.
  apply (runWorld_respects Extends cfg (fun ev => negb (isClear ev)));
    [|exact Hevs].
  intros dev ev Hev. apply handle_extends. now apply negb_true_iff.
Qed.

Lemma history_append_only_witness :
  exists added,
    chatHistory (view (hook (fst (runWorld DEFAULT_CONFIG
       [(goodDevice, EvOpen);
        (goodDevice, EvSendText 1000 "what is variance");
        (goodDevice, EvMessage 2000 (Response None true (Some "Spread.") None))]
       initialWorld))))
      = chatHistory (view (hook initialWorld)) ++ added.
Proof.
  apply (history_append_only DEFAULT_CONFIG
           [(goodDevice, EvOpen);
            (goodDevice, EvSendText 1000 "what is variance");
            (goodDevice, EvMessage 2000 (Response None true (Some "Spread.") None))]
           initialWorld).
  reflexivity.
Defined.

(** X10. Only transcriptions move the conversation gate: over any sequence
    of events without a transcription message (responses, errors, audio,
    firings, user actions, connection events) the conversation state is
    unchanged; there is no hang-up message and no time-out. *)
Theorem gate_moves_on_transcriptions_only {cm : CaseMapping} (cfg : Config)
    (evs : list (Device * Event)) (w : World) :
  forallb (fun de => negb (isTranscription (snd de))) evs = true ->
  conversationState (view (hook (fst (runWorld cfg evs w))))
    = conversationState (view (hook w)).
Proof.
  intros Hevs.
  apply (runWorld_respects (Keeps (fun h => conversationState (view h))) cfg
           (fun ev => negb (isTranscription ev))); [|exact Hevs].
  intros dev ev Hev. apply handle_keeps_conversation. now apply negb_true_iff.
Qed.

Lemma gate_moves_on_transcriptions_only_witness :
  let w := mkWorld (withConversationState Active listeningHook) true in
  conversationState (view (hook (fst (runWorld DEFAULT_CONFIG
       [(goodDevice, EvMessage 1000 (ErrorMsg "boom"));
        (goodDevice, EvClose);
        (goodDevice, EvClear);
        (goodDevice, EvSetMode PushToTalk)] w)))) = Active.
Proof.
  apply (gate_moves_on_transcriptions_only DEFAULT_CONFIG
           [(goodDevice, EvMessage 1000 (ErrorMsg "boom"));
            (goodDevice, EvClose);
            (goodDevice, EvClear);
            (goodDevice, EvSetMode PushToTalk)]
           (mkWorld (withConversationState Active listeningHook) true)).
  reflexivity.
Defined.

Lemma ticks_idle {cm : CaseMapping} (cfg : Config) (ticks : list
    (Device * Event)) (w : World) :
  monitoring w = false ->
  forallb (fun de => match snd de with EvTick _ => true | _ => false end) ticks
    = true ->
  runWorld cfg ticks w = (w, []).
Proof.
  intros Hm. induction ticks as [|[dev ev] ticks IH]; intros Ht.
  - reflexivity.
  - cbn [forallb snd] in Ht. apply andb_true_iff in Ht as [Hev Ht].
    destruct ev; try discriminate.
    cbn [runWorld]. rewrite (stepWorld_idle cfg dev (EvTick x) w Hm).
    now rewrite (IH Ht).
Qed.

(** X11. Switching to push-to-talk cancels the detector at once: the flag
    and the timer are off, the speech and silence marks are forgotten, the
    status is idle, the recorder is stopped exactly when one was running,
    and no firing of the timer can follow. *)
Theorem push_to_talk_cancels_detector {cm : CaseMapping} (cfg : Config)
    (dev : Device) (w : World)
    (ticks : list (Device * Event)) :
  forallb (fun de => match snd de with EvTick _ => true | _ => false end) ticks
    = true ->
  let w' := fst (stepWorld cfg (dev, EvSetMode PushToTalk) w) in
  monitoring w' = false /\
  vadEnabled (vad (hook w')) = false /\
  isSpeaking (vad (hook w')) = false /\
  silenceStart (vad (hook w')) = None /\
  speechStart (vad (hook w')) = None /\
  mode (view (hook w')) = PushToTalk /\
  status (view (hook w')) = Idle /\
  snd (stepWorld cfg (dev, EvSetMode PushToTalk) w)
    = (if isRecording (vad (hook w))
       then match recorder (io (hook w)) with
            | Some RecRecording => [RecorderStop]
            | _ => []
            end
       else []) /\
  runWorld cfg ticks w' = (w', []).
Proof.
  intros Ht. cbv zeta.
  assert (Hm : monitoring (fst (stepWorld cfg (dev, EvSetMode PushToTalk) w))
               = false).
  { now destruct (stepWorld_fired cfg dev (EvSetMode PushToTalk) w eq_refl)
      as (_ & _ & ->). }
  split; [exact Hm|].
  destruct (stepWorld_fired cfg dev (EvSetMode PushToTalk) w eq_refl)
    as (-> & -> & _).
  split; [|split; [|split; [|split; [|split; [|split; [|split]]]]]];
    try (apply ticks_idle; assumption);
    destruct w as [h mon]; cbn [hook]; open_named h;
    destruct ir_, rc_ as [[|]|]; reflexivity.
Qed.

Lemma push_to_talk_cancels_detector_witness :
  let w := mkWorld (withRecorder (Some RecRecording)
                      (withIsRecording true (withIsSpeaking true
                         (withStatus Recording listeningHook)))) true in
  snd (stepWorld DEFAULT_CONFIG (goodDevice, EvSetMode PushToTalk) w)
    = [RecorderStop].
Proof.
  destruct (push_to_talk_cancels_detector DEFAULT_CONFIG goodDevice
              (mkWorld (withRecorder (Some RecRecording)
                          (withIsRecording true (withIsSpeaking true
                             (withStatus Recording listeningHook)))) true)
              [(goodDevice, EvTick (mkSample (9 # 10) 1000 1000))] eq_refl)
    as (_ & _ & _ & _ & _ & _ & _ & He & _).
  exact He.
Defined.

(* ================================================================== *)
(** ** Transcriptions and text in an open conversation *)
(* ================================================================== *)

(** X12. In an active conversation a transcription without an end phrase is
    taken whole: it becomes the transcription and a user message as it is,
    wake phrase included if it has one, the status is processing, the
    accumulator is reset, the conversation stays active and nothing is
    written on the socket. *)
Theorem active_transcription_logged {cm : CaseMapping} (now : Z)
    (text : string) (h : Hook) :
  conversationState (view h) = Active ->
  containsEndPhrase text = false ->
  let h' := exec (onTranscription now text) h in
  chatHistory (view h') = chatHistory (view h) ++ [userMessage now text] /\
  transcription (view h') = text /\
  status (view h') = Processing /\
  currentResponse (io h') = EmptyString /\
  conversationState (view h') = Active /\
  effects (onTranscription now text) h = [].
Proof.
  intros Ha Hend. unfold onTranscription. rewrite Hend.
  open_named h. run. repeat split.
Qed.

Lemma active_transcription_logged_witness :
  let h := withConversationState Active listeningHook in
  chatHistory (view (exec (onTranscription 1000 "hey zed what is variance") h))
    = [userMessage 1000 "hey zed what is variance"].
Proof.
  destruct (active_transcription_logged (cm := basicCase) 1000 "hey zed what is variance"
              (withConversationState Active listeningHook) eq_refl eq_refl)
    as (Hh & _).
  exact Hh.
Defined.

(** X13. [sendText] on a blank text (empty, or white space and line
    terminators only, the no-break space and the other Unicode spaces
    included) does nothing at all. On any other text with the socket open it writes one
    text message carrying the text as typed, not trimmed, appends it as a
    user message, empties the response and the accumulator and sets the
    status to processing; the error is left as it was. *)
Theorem sendText_online (now : Z) (text : string) (h : Hook) :
  (trim text = EmptyString -> sendText now text h = (tt, h, [])) /\
  (trim text <> EmptyString -> wsOpen (io h) = true ->
   let h' := exec (sendText now text) h in
   effects (sendText now text) h = [WsSend (OutText text)] /\
   chatHistory (view h')
     = chatHistory (view h)
       ++ [{| msg_idTime := now; msg_role := User; msg_content := text;
              msg_timestamp := now |}] /\
   transcription (view h') = text /\
   response (view h') = EmptyString /\
   currentResponse (io h') = EmptyString /\
   status (view h') = Processing /\
   error (view h') = error (view h)).
Proof.
  unfold sendText. split.
  - intros ->. reflexivity.
  - intros Hblank Hopen. destruct (trim text); [congruence|].
    open_named h. run. repeat split.
Qed.

Lemma sendText_online_witness :
  sendText 1000 (String 160 "  ") listeningHook = (tt, listeningHook, []) /\
  effects (sendText 1000 " what is variance ") listeningHook
    = [WsSend (OutText " what is variance ")].
Proof.
  destruct (sendText_online 1000 (String 160 "  ") listeningHook)
    as [Hblank _].
  destruct (sendText_online 1000 " what is variance " listeningHook)
    as [_ Hsend].
  split.
  - apply Hblank. reflexivity.
  - destruct Hsend as [He _]; [vm_compute; discriminate | reflexivity | exact He].
Defined.

(* ================================================================== *)
(** ** Recording by hand *)
(* ================================================================== *)

Lemma dataEvents_spec (blobs : list Blob) :
  forall h : Hook,
    exec (dataEvents blobs) h
      = withChunks (chunks (io h)
                    ++ filter (fun b => (0 <? List.length b)%nat) blobs) h /\
    effects (dataEvents blobs) h = [].
Proof.
  induction blobs as [|b blobs IH]; intros h.
  - open_named h. cbn. now rewrite app_nil_r.
  - cbn [dataEvents]. rewrite exec_bind, effects_bind.
    destruct (IH (exec (onDataAvailable b) h)) as [-> ->].
    open_named h. unfold onDataAvailable. cbn [filter].
    destruct (0 <? List.length b)%nat; run; rewrite <- ?app_assoc;
      split; reflexivity.
Qed.

Lemma concat_nonempty (blobs : list Blob) :
  List.concat (filter (fun b => (0 <? List.length b)%nat) blobs)
    = List.concat blobs.
Proof.
  induction blobs as [|b blobs IH]; [reflexivity|].
  destruct b as [|c b]; [exact IH|].
  change ((c :: b) ++ List.concat
            (filter (fun b => (0 <? List.length b)%nat) blobs)
          = (c :: b) ++ List.concat blobs).
  now rewrite IH.
Qed.

(** X14. A turn by hand in push-to-talk mode: the first press starts one
    recorder (asking for the microphone first if the stream is not cached
    yet), the second press stops it, and when the recorder's stop event
    fires the fragments received since the start, those delivered after the
    stop included, are sent as one binary message, concatenated in order,
    whatever was in the buffer before; if the socket is not open then, the
    utterance is dropped and the status is error. In both cases the buffer
    is empty afterwards and no recording is in progress. *)
Theorem push_to_talk_turn (dev : Device) (blobs final : list Blob) (h : Hook) :
  mode (view h) = PushToTalk ->
  isRecording (vad h) = false ->
  hasStream (io h) = true \/ micGranted dev = true ->
  recorderOk dev = true ->
  let h' := exec (pushToTalkTurn dev blobs final) h in
  effects (pushToTalkTurn dev blobs final) h
    = (if hasStream (io h) then [] else [GetUserMedia])
      ++ [RecorderStart; RecorderStop]
      ++ (if wsOpen (io h)
          then [WsSend (OutAudio (List.concat (blobs ++ final)))] else []) /\
  chunks (io h') = [] /\
  isRecording (vad h') = false /\
  recorder (io h') = Some RecInactive /\
  status (view h') = (if wsOpen (io h) then Processing else Error) /\
  (wsOpen (io h) = false -> error (view h') = Some "Not connected to server").
Proof.
  intros Hmode Hrec Hmic Hok. unfold pushToTalkTurn. cbv zeta.
  rewrite !exec_bind, !effects_bind.
  set (h1 := exec (toggleRecording dev) h).
  destruct (dataEvents_spec blobs h1) as [-> ->].
  match goal with
  | |- context [exec (dataEvents final) ?g] =>
      destruct (dataEvents_spec final g) as [-> ->]
  end.
  subst h1.
  rewrite concat_app, <- (concat_nonempty blobs), <- (concat_nonempty final).
  set (kept := filter (fun b => (0 <? List.length b)%nat) blobs) in *.
  set (last := filter (fun b => (0 <? List.length b)%nat) final) in *.
  clearbody kept last.
  open_named h. unfold toggleRecording, startRecording, stopRecording,
    startRecordingInternal, setupAudio, stopRecordingInternal, onRecorderStop.
  rewrite Hok.
  destruct hs_, wo_;
    try (destruct Hmic as [Hmic|Hmic]; [discriminate | rewrite Hmic]);
    run; rewrite ?concat_app; repeat split; congruence.
Qed.

Lemma push_to_talk_turn_witness :
  let h := withWsOpen true (withMode PushToTalk initialHook) in
  effects (pushToTalkTurn goodDevice
             [[Byte.x01; Byte.x02]; []] [[Byte.x03]]) h
    = [GetUserMedia; RecorderStart; RecorderStop;
       WsSend (OutAudio [Byte.x01; Byte.x02; Byte.x03])].
Proof.
  destruct (push_to_talk_turn goodDevice
              [[Byte.x01; Byte.x02]; []] [[Byte.x03]]
              (withWsOpen true (withMode PushToTalk initialHook)))
    as (He & _).
  - reflexivity.
  - reflexivity.
  - right. reflexivity.
  - reflexivity.
  - exact He.
Defined.

(** X15. When the microphone is refused and no stream is cached: starting a
    recording asks for it once, starts no recorder, and ends in status error
    with the message of the recording step, which replaces the one of the
    microphone step; switching to hands-free still records the new mode but
    leaves the detector and the status as they were, with the microphone
    message; the mount effect does the same with its own message. *)
Theorem microphone_refused (dev : Device) (h : Hook) :
  hasStream (io h) = false ->
  micGranted dev = false ->
  (isRecording (vad h) = false ->
   let h' := exec (startRecordingInternal dev) h in
   effects (startRecordingInternal dev) h = [GetUserMedia] /\
   error (view h') = Some "Failed to start recording" /\
   status (view h') = Error /\
   isRecording (vad h') = false /\
   recorder (io h') = recorder (io h)) /\
  (let h' := exec (setMode dev HandsFree) h in
   effects (setMode dev HandsFree) h = [GetUserMedia] /\
   mode (view h') = HandsFree /\
   vadEnabled (vad h') = vadEnabled (vad h) /\
   status (view h') = status (view h) /\
   error (view h') = Some "Microphone access denied") /\
  (let h' := exec (initHandsFree dev) h in
   effects (initHandsFree dev) h = [GetUserMedia] /\
   vadEnabled (vad h') = vadEnabled (vad h) /\
   status (view h') = status (view h) /\
   error (view h') = Some "Microphone access required").
Proof.
  intros Hs Hm. open_named h.
  unfold startRecordingInternal, setMode, initHandsFree, setupAudio.
  rewrite Hm. split; [intros ->|split]; run; repeat split.
Qed.

Lemma microphone_refused_witness :
  error (view (exec (setMode (mkDevice false true) HandsFree)
                 (withMode PushToTalk initialHook)))
    = Some "Microphone access denied" /\
  mode (view (exec (setMode (mkDevice false true) HandsFree)
                (withMode PushToTalk initialHook))) = HandsFree /\
  vadEnabled (vad (exec (setMode (mkDevice false true) HandsFree)
                     (withMode PushToTalk initialHook))) = false.
Proof.
  destruct (microphone_refused (mkDevice false true)
              (withMode PushToTalk initialHook) eq_refl eq_refl)
    as (_ & (_ & Hmode & Hen & _ & Herr) & _).
  split; [exact Herr | split; [exact Hmode | exact Hen]].
Defined.

(* ================================================================== *)
(** ** The wake phrase table *)
(* ================================================================== *)

Lemma existsb_false_indexOf (phrases : list string) (lower : string) :
  existsb (fun phrase => includes phrase lower) phrases = false ->
  forall text, extractAfter phrases text lower = text.
Proof.
  induction phrases as [|p ps IH]; intros H text; [reflexivity|].
  cbn [existsb] in H. apply orb_false_iff in H as [Hp Hps].
  cbn [extractAfter]. unfold includes in Hp.
  destruct (indexOf p lower); [discriminate | now apply IH].
Qed.

(** X16. [extractAfterWakeWord] gives a text with no wake phrase back
    unchanged, leading and trailing white space included. *)
Theorem extract_without_wake_word {cm : CaseMapping} (text : string) :
  containsWakeWord text = false -> extractAfterWakeWord text = text.
Proof.
  intros H. unfold extractAfterWakeWord. apply existsb_false_indexOf.
  unfold containsWakeWord in H. cbv zeta in H.
  rewrite <- H. apply eq_true_iff_eq.
  rewrite !existsb_exists. split; intros (p & Hin & Hp); exists p;
    (split; [exact Hin|]).
  - rewrite includes_trim_iff; [exact Hp|].
    assert (Ht : forallb tightPhrase WAKE_PHRASES = true) by reflexivity.
    rewrite forallb_forall in Ht. now apply Ht.
  - now apply includes_trim.
Qed.

Lemma extract_without_wake_word_witness :
  extractAfterWakeWord "  what is variance " = "  what is variance ".
Proof.
  apply (extract_without_wake_word "  what is variance "). reflexivity.
Defined.

Lemma startsWith_prefix (p q : string) :
  forall s : string,
    startsWith (JsString.append p q) s = true -> startsWith p s = true.
Proof.
  induction p as [|a p IH]; intros s H; [apply startsWith_empty|].
  destruct s as [|b s]; [discriminate|]. cbn in H |- *.
  apply andb_true_iff in H as [Hab H]. rewrite Hab. cbn. now apply IH.
Qed.

Lemma includes_prefix (p q s : string) :
  includes (JsString.append p q) s = true -> includes p s = true.
Proof.
  induction s as [|c s IH]; intros H.
  - apply includes_nil_inv in H. destruct p; [reflexivity | discriminate].
  - unfold includes in H. cbn [indexOf] in H.
    destruct (startsWith (JsString.append p q) (String c s)) eqn:E.
    + apply startsWith_prefix in E. unfold includes. cbn [indexOf].
      now rewrite E.
    + apply includes_cons, IH. unfold includes.
      destruct (indexOf (JsString.append p q) s); [reflexivity | discriminate].
Qed.

Lemma zedd_needs_zed (s : string) :
  includes "hey zed" s = false -> includes "hey zedd" s = false.
Proof.
  intros H. destruct (includes "hey zedd" s) eqn:E; [|reflexivity].
  apply (includes_prefix "hey zed" "d") in E. congruence.
Qed.

(** X17. The variant ["hey zedd"] of the wake phrase table is never the one
    matched: every text that has it also has ["hey zed"], which stands
    before it in the table. Both the wake test and the extraction are the
    same with and without it, for every text. *)
Theorem zedd_variant_redundant {cm : CaseMapping} (text : string) :
  containsWakeWord text
    = existsb (fun phrase => includes phrase (trim (toLowerCase text)))
        WAKE_PHRASES_SHORT /\
  extractAfterWakeWord text
    = extractAfter WAKE_PHRASES_SHORT text (toLowerCase text).
Proof.
  split.
  - unfold containsWakeWord, WAKE_PHRASES, WAKE_PHRASES_SHORT. cbv zeta.
    cbn [existsb].
    destruct (includes "hey zed" (trim (toLowerCase text))) eqn:E;
      [reflexivity|].
    now rewrite (zedd_needs_zed _ E).
  - unfold extractAfterWakeWord, WAKE_PHRASES, WAKE_PHRASES_SHORT.
    cbn [extractAfter].
    destruct (indexOf "hey zed" (toLowerCase text)) eqn:E; [reflexivity|].
    assert (Hz : indexOf "hey zedd" (toLowerCase text) = None).
    { assert (Hi : includes "hey zed" (toLowerCase text) = false)
        by (unfold includes; now rewrite E).
      apply zedd_needs_zed in Hi. unfold includes in Hi.
      destruct (indexOf "hey zedd" (toLowerCase text));
        [discriminate | reflexivity]. }
    now rewrite Hz.
Qed.

(* ================================================================== *)
(** ** Messages that leave the session alone *)
(* ================================================================== *)

(** X18. Connection events do not touch the session: opening, closing and
    failing of the socket leave the status, the chat history, the
    conversation state, the transcription, the response, the accumulator,
    the detector and the recorder as they were. Opening sends the config
    message with the configured sample rate, once, and clears the error;
    the other two send nothing. *)
Theorem connection_events_keep_session (cfg : Config) (h : Hook) :
  let kept (c : Act unit) :=
    let h' := exec c h in
    status (view h') = status (view h) /\
    chatHistory (view h') = chatHistory (view h) /\
    conversationState (view h') = conversationState (view h) /\
    transcription (view h') = transcription (view h) /\
    response (view h') = response (view h) /\
    currentResponse (io h') = currentResponse (io h) /\
    vad h' = vad h /\
    recorder (io h') = recorder (io h) /\
    chunks (io h') = chunks (io h) in
  kept (onOpen cfg) /\ kept onClose /\ kept onSocketError /\
  effects (onOpen cfg) h = [WsSend (OutConfig (sampleRate cfg))] /\
  error (view (exec (onOpen cfg) h)) = None /\
  isConnected (view (exec (onOpen cfg) h)) = true /\
  effects onClose h = [] /\
  isConnected (view (exec onClose h)) = false /\
  effects onSocketError h = [] /\
  isConnected (view (exec onSocketError h)) = false /\
  error (view (exec onSocketError h)) = Some "Connection failed".
Proof. open_named h. cbv zeta. repeat split. Qed.

(** X19. An error message of the server is shown as it is and sets the
    status to error; the chat history, the conversation state, the
    accumulator, the detector and the recorder are untouched and nothing is
    sent. Status error does not hold the detector back: afterwards it may
    listen as soon as it is enabled, not recording and past the cool-down,
    even if the error came in the middle of a turn. *)
Theorem error_message_keeps_session {cm : CaseMapping} (now t : Z)
    (message : string) (h : Hook) :
  let h' := exec (onMessage now (ErrorMsg message)) h in
  error (view h') = Some message /\
  status (view h') = Error /\
  chatHistory (view h') = chatHistory (view h) /\
  conversationState (view h') = conversationState (view h) /\
  vad h' = vad h /\
  io h' = io h /\
  effects (onMessage now (ErrorMsg message)) h = [] /\
  canListen t h'
    = vadEnabled (vad h) && negb (isRecording (vad h))
      && negb (t <? cooldownUntil (vad h))%Z.
Proof.
  open_named h. cbv zeta. repeat split.
  unfold canListen. cbn. now rewrite andb_true_r.
Qed.

(* ================================================================== *)
(** ** The two copies of the hook *)
(* ================================================================== *)

Lemma bind_ext {A B} (c1 c2 : Act A) (k : A -> Act B) (h : Hook) :
  c1 h = c2 h -> bind c1 k h = bind c2 k h.
Proof. intros H. unfold bind. now rewrite H. Qed.

(** X20. The transcription handler of the hook with the gate does, in an
    active conversation and on a text without end phrase, exactly what the
    handler of the copy under [frontend/src/hooks] does on every text: same
    state, same log. *)
Theorem gate_agrees_with_legacy {cm : CaseMapping} (now : Z) (text : string)
    (h : Hook) :
  conversationState (view h) = Active ->
  containsEndPhrase text = false ->
  onTranscription now text h = Legacy.onTranscription now text h.
Proof.
  intros Ha Hend. unfold onTranscription, Legacy.onTranscription.
  rewrite Hend. open_named h. reflexivity.
Qed.

Lemma gate_agrees_with_legacy_witness :
  onTranscription 1000 "what is variance"
    (withConversationState Active listeningHook)
  = Legacy.onTranscription 1000 "what is variance"
      (withConversationState Active listeningHook).
Proof.
  apply (gate_agrees_with_legacy 1000 "what is variance"
           (withConversationState Active listeningHook)); reflexivity.
Defined.

(** X21. Past the cool-down and with a status that is neither processing
    nor speaking, a firing of the detector does exactly what a firing of
    the copy under [frontend/src/hooks] does. That copy looks at neither:
    whether it calls for a recording does not depend on the status or on
    the end of the cool-down. *)
Theorem detector_agrees_with_legacy (cfg : Config) (dev : Device) (x : Sample)
    (h : Hook) :
  ((cooldownUntil (vad h) <= clock x)%Z ->
   notBusy (status (view h)) = true ->
   volumeTick cfg dev x h = Legacy.volumeTick cfg dev x h) /\
  (forall (st : VoiceStatus) (until : Z),
     result (Legacy.speechBranch cfg x) (withCooldownUntil until (withStatus st h))
       = result (Legacy.speechBranch cfg x) h).
Proof.
  split.
  - intros Hc Hb.
    assert (Hs : speechBranch cfg x (withVolume (level x) h)
                 = Legacy.speechBranch cfg x (withVolume (level x) h)).
    { unfold speechBranch, Legacy.speechBranch. apply bind_ext.
      unfold read. f_equal. f_equal. unfold canListen, Legacy.canListen.
      open_named h. cbn. rewrite Hb, andb_true_r.
      apply Z.ltb_ge in Hc. now rewrite Hc, andb_true_r. }
    unfold volumeTick, Legacy.volumeTick.
    cbv beta iota zeta delta [bind setVolume modify].
    now rewrite Hs.
  - intros st until. open_named h.
    unfold result, Legacy.speechBranch, Legacy.canListen, bind, read. cbn.
    destruct (ve_ && negb ir_); [|reflexivity].
    destruct (Qltb (vadThreshold cfg) (level x)); [|reflexivity].
    cbn. destruct (negb (truthyTime sst_)); [reflexivity|].
    destruct (speechMinDuration cfg <? clock x - timeOf sst_)%Z; reflexivity.
Qed.

Lemma detector_agrees_with_legacy_witness :
  volumeTick DEFAULT_CONFIG goodDevice (mkSample (9 # 10) 1000 1000)
    listeningHook
  = Legacy.volumeTick DEFAULT_CONFIG goodDevice (mkSample (9 # 10) 1000 1000)
      listeningHook.
Proof.
  destruct (detector_agrees_with_legacy DEFAULT_CONFIG goodDevice
              (mkSample (9 # 10) 1000 1000) listeningHook) as [H _].
  apply H; [cbn; lia | reflexivity].
Defined.

(* ================================================================== *)
(** ** Further properties of the level meter *)
(* ================================================================== *)

Section LevelMeterMore.

Variable rnd : R -> R.
Hypothesis rnd_monotone : forall x y : R, (x <= y)%R -> (rnd x <= rnd y)%R.
Hypothesis rnd_exact :
  forall k : nat, (Z.of_nat k <= 2 ^ 53)%Z -> rnd (INR k) = INR k.

Lemma sumSquares_silence (n : nat) :
  sumSquares rnd (repeat Byte.x00 n) 0 = 0%R.
Proof.
  induction n as [|n IH]; [reflexivity|]. cbn [repeat sumSquares].
  replace (byteValue Byte.x00) with 0%R by reflexivity.
  replace (0 / 255)%R with 0%R by lra.
  rewrite (rnd_0 rnd rnd_exact), Rmult_0_l, (rnd_0 rnd rnd_exact), Rplus_0_l,
    (rnd_0 rnd rnd_exact).
  exact IH.
Qed.

Lemma sumSquares_full (n : nat) :
  forall k : nat,
    (Z.of_nat (k + n) <= 2 ^ 53)%Z ->
    sumSquares rnd (repeat Byte.xff n) (INR k) = INR (k + n).
Proof.
  induction n as [|n IH]; intros k Hk; cbn [repeat sumSquares].
  - now rewrite Nat.add_0_r.
  - replace (byteValue Byte.xff / 255)%R with 1%R.
    + rewrite (rnd_1 rnd rnd_exact), Rmult_1_l, (rnd_1 rnd rnd_exact).
      rewrite <- S_INR, rnd_exact by lia.
      rewrite IH by lia. f_equal. lia.
    + unfold byteValue.
      replace (INR (N.to_nat (Byte.to_N Byte.xff))) with 255%R
        by (rewrite INR_IZR_INZ; reflexivity).
      lra.
Qed.

Lemma normalized_monotone (a b : Byte.byte) :
  (Byte.to_N a <= Byte.to_N b)%N ->
  (0 <= rnd (byteValue a / 255) <= rnd (byteValue b / 255))%R.
Proof.
  intros Hab. split; [apply (normalized_unit rnd rnd_monotone rnd_exact)|].
  apply rnd_monotone. unfold byteValue.
  assert (H : (INR (N.to_nat (Byte.to_N a)) <= INR (N.to_nat (Byte.to_N b)))%R)
    by (apply le_INR; lia).
  lra.
Qed.

Lemma sumSquares_monotone (d1 d2 : list Byte.byte) :
  Forall2 (fun a b => (Byte.to_N a <= Byte.to_N b)%N) d1 d2 ->
  forall s1 s2 : R,
    (s1 <= s2)%R -> (sumSquares rnd d1 s1 <= sumSquares rnd d2 s2)%R.
Proof.
  induction 1 as [|a b d1 d2 Hab _ IH]; intros s1 s2 Hs; [exact Hs|].
  cbn [sumSquares]. apply IH. apply rnd_monotone.
  destruct (normalized_monotone a b Hab) as [H0 H1].
  assert (Hsq : (rnd (rnd (byteValue a / 255) * rnd (byteValue a / 255))
                 <= rnd (rnd (byteValue b / 255) * rnd (byteValue b / 255)))%R)
    by (apply rnd_monotone; nra).
  lra.
Qed.

Lemma getVolume_monotone_aux (d1 d2 : list Byte.byte) :
  Forall2 (fun a b => (Byte.to_N a <= Byte.to_N b)%N) d1 d2 ->
  d1 <> [] ->
  (getVolume rnd (Some d1) <= getVolume rnd (Some d2))%R.
Proof.
  intros Hle Hne. unfold getVolume.
  rewrite <- (Forall2_length Hle).
  assert (Hn : (0 < INR (List.length d1))%R).
  { apply lt_0_INR. destruct d1; [congruence | cbn; lia]. }
  apply rnd_monotone, sqrt_le_1_alt, rnd_monotone.
  unfold Rdiv. apply Rmult_le_compat_r.
  - left. now apply Rinv_0_lt_compat.
  - apply (sumSquares_monotone d1 d2 Hle). lra.
Qed.

Lemma getVolume_extremes_aux (n : nat) :
  (0 < n)%nat -> (Z.of_nat n <= 2 ^ 53)%Z ->
  getVolume rnd (Some (repeat Byte.x00 n)) = 0%R /\
  getVolume rnd (Some (repeat Byte.xff n)) = 1%R.
Proof.
  intros Hpos Hn. unfold getVolume. rewrite !repeat_length. split.
  - rewrite sumSquares_silence. unfold Rdiv. rewrite Rmult_0_l.
    now rewrite (rnd_0 rnd rnd_exact), sqrt_0, (rnd_0 rnd rnd_exact).
  - change 0%R with (INR 0). rewrite sumSquares_full by (cbn; lia).
    cbn [Nat.add]. unfold Rdiv. rewrite Rinv_r.
    + now rewrite (rnd_1 rnd rnd_exact), sqrt_1, (rnd_1 rnd rnd_exact).
    + apply not_0_INR. lia.
Qed.

End LevelMeterMore.

(** X22. The bounds of the level are reached: under round-to-nearest a
    buffer of zeros gives level 0 and a buffer of 255s gives level 1, for
    every buffer length from 1 on. *)
Theorem getVolume_extremes (rnd : R -> R) (n : nat) :
  (forall x y : R, (x <= y)%R -> (rnd x <= rnd y)%R) ->
  (forall k : nat, (Z.of_nat k <= 2 ^ 53)%Z -> rnd (INR k) = INR k) ->
  (0 < n)%nat -> (Z.of_nat n <= 2 ^ 53)%Z ->
  getVolume rnd (Some (repeat Byte.x00 n)) = 0%R /\
  getVolume rnd (Some (repeat Byte.xff n)) = 1%R.
Proof. intros Hm He. now apply getVolume_extremes_aux. Qed.

Lemma getVolume_extremes_witness :
  getVolume (fun x => x) (Some (repeat Byte.x00 128)) = 0%R /\
  getVolume (fun x => x) (Some (repeat Byte.xff 128)) = 1%R.
Proof.
  apply (getVolume_extremes (fun x => x) 128).
  - intros x y H. exact H.
  - intros k _. reflexivity.
  - lia.
  - cbn. lia.
Defined.

(** X23. The level is monotone in the buffer: under round-to-nearest, if
    every entry of one buffer is at most the entry at the same place of
    another, the level of the first is at most the level of the second. *)
Theorem getVolume_monotone (rnd : R -> R) (d1 d2 : list Byte.byte) :
  (forall x y : R, (x <= y)%R -> (rnd x <= rnd y)%R) ->
  (forall k : nat, (Z.of_nat k <= 2 ^ 53)%Z -> rnd (INR k) = INR k) ->
  Forall2 (fun a b => (Byte.to_N a <= Byte.to_N b)%N) d1 d2 ->
  d1 <> [] ->
  (getVolume rnd (Some d1) <= getVolume rnd (Some d2))%R.
Proof. intros Hm He. now apply getVolume_monotone_aux. Qed.

Lemma getVolume_monotone_witness :
  (getVolume (fun x => x) (Some [Byte.x10; Byte.x20])
   <= getVolume (fun x => x) (Some [Byte.x10; Byte.x21]))%R.
Proof.
  apply (getVolume_monotone (fun x => x)
           [Byte.x10; Byte.x20] [Byte.x10; Byte.x21]).
  - intros x y H. exact H.
  - intros k _. reflexivity.
  - repeat constructor; cbn; lia.
  - discriminate.
Defined.

(* ================================================================== *)
(** ** A whole turn in hands-free mode *)
(* ================================================================== *)








(* ================================================================== *)
(** ** The typing animation *)
(* ================================================================== *)

Lemma typing_progress {A : Type} (text : list A) (n : nat) :
  forall t : Typing A,
    timerOn t = true ->
    (typed t + n < List.length text)%nat ->
    typingTicks text n t
      = {| typed := typed t + n;
           shown := if (n =? 0)%nat then shown t
                    else sliceTo (typed t + n) text;
           timerOn := true;
           timeouts := timeouts t |}.
Proof.
  induction n as [|n IH]; intros t Hon Hlt.
  - destruct t as [i s o k]; cbn in *. subst o. now rewrite Nat.add_0_r.
  - cbn [typingTicks]. unfold typingTick at 1. rewrite Hon. cbv zeta.
    destruct (Nat.eqb_spec (S (typed t)) (List.length text)) as [He|_];
      [lia|].
    rewrite IH; cbn [typed shown timerOn timeouts]; [|reflexivity|lia].
    replace (S (typed t) + n)%nat with (typed t + S n)%nat by lia.
    destruct n; cbn [Nat.eqb]; [|reflexivity].
    now rewrite Nat.add_1_r.
Qed.

Lemma typing_stopped {A : Type} (text : list A) (n : nat) :
  forall t : Typing A, timerOn t = false -> typingTicks text n t = t.
Proof.
  induction n as [|n IH]; intros t Hoff; [reflexivity|].
  cbn [typingTicks]. unfold typingTick. rewrite Hoff. now apply IH.
Qed.

(** X25. The typing animation of a non-empty text: after [k] firings of its
    interval, [k] less than the length of the text, the first [k] code units
    are shown and the interval is still set; the firing that shows the whole
    text clears the interval and sets the time-out to the next phase; the
    time-out is set once, and the state does not change afterwards however
    often the callback is run. *)
Theorem typing_completes {A : Type} (text : list A) (k more : nat) :
  text <> [] ->
  (k < List.length text)%nat ->
  let n := List.length text in
  shown (typingTicks text k typingStart) = sliceTo k text /\
  timerOn (typingTicks text k typingStart) = true /\
  timeouts (typingTicks text k typingStart) = 0%nat /\
  typingTicks text (n + more) typingStart
    = {| typed := n; shown := text; timerOn := false; timeouts := 1 |}.
Proof.
  intros Hne Hk. cbv zeta.
  rewrite (typing_progress text k typingStart eq_refl) by exact Hk.
  cbn [shown timerOn timeouts typed typingStart Nat.add].
  split; [destruct k; reflexivity|]. split; [reflexivity|].
  split; [reflexivity|].
  destruct text as [|c text]; [contradiction|]. cbn [List.length].
  replace (S (List.length text) + more)%nat
    with (List.length text + S more)%nat by lia.
  assert (Happ : forall a b t,
             typingTicks (c :: text) (a + b) t
               = typingTicks (c :: text) b (typingTicks (c :: text) a t)).
  { induction a as [|a IH]; intros b t; [reflexivity|]. cbn. apply IH. }
  rewrite Happ.
  rewrite (typing_progress (c :: text) (List.length text) typingStart eq_refl)
    by (cbn; lia).
  cbn [typingTicks typed shown timerOn timeouts typingStart Nat.add].
  unfold typingTick at 1. cbn [timerOn typed timeouts List.length].
  rewrite Nat.eqb_refl.
  rewrite typing_stopped by reflexivity.
  unfold sliceTo. f_equal.
  change (S (List.length text)) with (List.length (c :: text)).
  apply firstn_all.
Qed.

Lemma typing_completes_witness :
  typingTicks [90; 69; 68]%N 7 typingStart
    = {| typed := 3; shown := [90; 69; 68]%N; timerOn := false;
         timeouts := 1 |}.
Proof.
  apply (typing_completes [90; 69; 68]%N 0 4); [discriminate | cbn; lia].
Defined.

(* ================================================================== *)
(** ** Events while the permission prompt is open *)
(* ================================================================== *)

(** With nothing in between, the two parts of [startRecordingInternal] are
    the function as it is run everywhere else. *)
Lemma startRecordingInternal_split (dev : Device) (h : Hook) :
  startRecordingInternal dev h
    = (p <- startRecordingBegin ;; startRecordingResume dev p) h.
Proof.
  open_named h. unfold startRecordingInternal, startRecordingBegin,
    startRecordingResume, startRecorder, setupAudio.
  destruct ir_, hs_, (micGranted dev), (recorderOk dev); reflexivity.
Qed.

(** X26. Two calls of [startRecordingInternal] made while the permission
    prompt is open both pass the test of [isRecordingRef], which is set only
    after the [await]: the microphone is asked for twice and, once it is
    granted, two recorders are started. One stop then stops the recorder
    held in [mediaRecorderRef], and after its stop event [isRecordingRef] is
    not set although a recorder started earlier has not been stopped. *)
Theorem double_start_during_prompt (dev : Device) (h : Hook) :
  isRecording (vad h) = false ->
  hasStream (io h) = false ->
  micGranted dev = true ->
  recorderOk dev = true ->
  let race :=
    p1 <- startRecordingBegin ;;
    p2 <- startRecordingBegin ;;
    startRecordingResume dev p1 ;;
    startRecordingResume dev p2 ;;
    stopRecordingInternal ;;
    onRecorderStop in
  let log := effects race h in
  firstn 5 log
    = [GetUserMedia; GetUserMedia; RecorderStart; RecorderStart; RecorderStop] /\
  startsIn log = 2%nat /\
  stopsIn log = 1%nat /\
  isRecording (vad (exec race h)) = false /\
  recorder (io (exec race h)) = Some RecInactive.
Proof.
  intros Hr Hs Hm Hk. cbv zeta. open_named h.
  unfold startRecordingBegin, startRecordingResume, startRecorder,
    stopRecordingInternal, onRecorderStop, sendIfOpen, setStatus, setError,
    setResponse.
  rewrite Hm, Hk. destruct wo_; run; repeat split.
Qed.

Lemma double_start_during_prompt_witness :
  let race :=
    p1 <- startRecordingBegin ;;
    p2 <- startRecordingBegin ;;
    startRecordingResume goodDevice p1 ;;
    startRecordingResume goodDevice p2 ;;
    stopRecordingInternal ;;
    onRecorderStop in
  startsIn (effects race (withMode PushToTalk initialHook)) = 2%nat /\
  stopsIn (effects race (withMode PushToTalk initialHook)) = 1%nat /\
  isRecording (vad (exec race (withMode PushToTalk initialHook))) = false.
Proof.
  destruct (double_start_during_prompt goodDevice
              (withMode PushToTalk initialHook))
    as (_ & H2 & H1 & Hr & _); try reflexivity.
  repeat split; assumption.
Defined.
